(** * EntryEditScreen: the note editor and its media-attachment pipeline

    A shallow embedding of [src/pages/EntryEditScreen.tsx]: the three
    handlers of the screen ([pickMedia], [removeMedia], [saveEntry]) as
    programs of a small state / trace / exception monad, run against a
    [World] that answers the calls the handlers make to their
    collaborators (image picker, clock, base64 decoder, object store,
    record store).

    JavaScript strings are sequences of UTF-16 code units; they are kept as
    lists of code units so that [split], [pop] and [trim] read as in the
    source.

    The handlers of [src/pages/LoginScreen.tsx] ([handleLogin]) and of
    [src/pages/HomeScreen.tsx] ([loadEntries], [handleDelete],
    [handleLogout]) follow, in the modules [Login] and [Home], over the
    same monad taken at their own state and events. *)

From Stdlib Require Import List NArith ZArith Bool Ascii String DecimalString Lia.
From Stdlib Require Import DecimalPos DecimalZ.
Import ListNotations.

Set Implicit Arguments.

(* ================================================================== *)
(** ** JavaScript strings *)
(* ================================================================== *)

Module Js.

Definition code_unit := N.
Definition jsstring := list code_unit.

(** An ASCII literal of the source as a list of code units. *)
Definition lit (s : string) : jsstring :=
  map N_of_ascii (list_ascii_of_string s).

Definition eqb (a b : jsstring) : bool :=
  if list_eq_dec N.eq_dec a b then true else false.

(** Truthiness of a string: only the empty string is falsy. *)
Definition truthy (s : jsstring) : bool :=
  match s with [] => false | _ :: _ => true end.

(** Truthiness of [string | null | undefined]. *)
Definition truthy_opt (s : option jsstring) : bool :=
  match s with Some v => truthy v | None => false end.

(** [a || b] where [a : string | undefined]. *)
Definition or_else (a : option jsstring) (b : jsstring) : jsstring :=
  match a with
  | Some v => if truthy v then v else b
  | None => b
  end.

(** [a || null] where [a : string | undefined]. *)
Definition or_null (a : option jsstring) : option jsstring :=
  match a with
  | Some v => if truthy v then Some v else None
  | None => None
  end.

(** [s.split(sep)] for a separator of one code unit: the segments between
    the occurrences of [sep]; the empty string gives one empty segment. *)
Fixpoint split (sep : code_unit) (s : jsstring) : list jsstring :=
  match s with
  | [] => [[]]
  | c :: rest =>
      if N.eqb c sep then [] :: split sep rest
      else match split sep rest with
           | [] => [[c]]
           | seg :: segs => (c :: seg) :: segs
           end
  end.

(** [arr.pop()]: the last element, [undefined] on an empty array. *)
Fixpoint pop {A : Type} (arr : list A) : option A :=
  match arr with
  | [] => None
  | [x] => Some x
  | _ :: rest => pop rest
  end.

(** WhiteSpace and LineTerminator code points of ECMAScript, the ones
    [String.prototype.trim] strips. *)
Definition isWhiteSpace (c : code_unit) : bool :=
  ((9 <=? c) && (c <=? 13)          (* TAB LF VT FF CR *)
   || (c =? 32)                     (* SP *)
   || (c =? 160)                    (* NBSP *)
   || (c =? 5760)                   (* OGHAM SPACE MARK *)
   || ((8192 <=? c) && (c <=? 8202))(* EN QUAD .. HAIR SPACE *)
   || (c =? 8232) || (c =? 8233)    (* LS PS *)
   || (c =? 8239)                   (* NNBSP *)
   || (c =? 8287)                   (* MMSP *)
   || (c =? 12288)                  (* IDEOGRAPHIC SPACE *)
   || (c =? 65279))%N.              (* ZWNBSP *)

Fixpoint trimStart (s : jsstring) : jsstring :=
  match s with
  | [] => []
  | c :: rest => if isWhiteSpace c then trimStart rest else s
  end.

Definition trimEnd (s : jsstring) : jsstring := rev (trimStart (rev s)).

Definition trim (s : jsstring) : jsstring := trimEnd (trimStart s).

(** [String(n)] for an integral Number below 1e21 in magnitude: plain
    decimal digits, with a minus sign for negatives. [Date.now()] is such
    a number. *)
Definition numberToString (n : Z) : jsstring :=
  lit (NilZero.string_of_int (Z.to_int n)).

End Js.

Import Js.

Definition dot : code_unit := 46%N.

Definition underscore : code_unit := 95%N.


(* ================================================================== *)
(** ** Data of the screen and of its collaborators *)
(* ================================================================== *)

Definition ArrayBuffer := list Byte.byte.

(** One asset of the picker's result ([ImagePickerAsset]): the fields the
    screen reads. Each is optional in the picker's declaration. *)
Module Asset.
Record t := mk {
  fileName : option jsstring;
  type : option jsstring;
  mimeType : option jsstring;
  base64 : option jsstring
}.
End Asset.

Record PermissionResponse := { granted : bool }.

Record ImagePickerResult := {
  canceled : bool;
  assets : list Asset.t
}.

(** The error object of a storage or table call; only [message] is read. *)
Record ClientError := { message : jsstring }.

Record FileOptions := {
  contentType : jsstring;
  upsert : bool
}.

(** A row of the table, as [route.params.entry] carries it. *)
Module Entry.
Record t := mk {
  id : option jsstring;
  title : option jsstring;
  content : option jsstring;
  media_url : option jsstring
}.
End Entry.

(** The object handed to [upsert]. *)
Module Payload.
Record t := mk {
  id : option jsstring;
  user_id : option jsstring;
  title : jsstring;
  content : jsstring;
  media_url : option jsstring
}.
End Payload.

(** The state variables of the component ([useState]). *)
Record Screen := {
  title : jsstring;
  content : jsstring;
  media : option jsstring;
  userId : option jsstring;
  loading : bool
}.

Definition setMedia (m : option jsstring) (s : Screen) : Screen :=
  {| title := title s; content := content s; media := m;
     userId := userId s; loading := loading s |}.

Definition setLoading (b : bool) (s : Screen) : Screen :=
  {| title := title s; content := content s; media := media s;
     userId := userId s; loading := b |}.

Definition setUserId (u : option jsstring) (s : Screen) : Screen :=
  {| title := title s; content := content s; media := media s;
     userId := u; loading := loading s |}.

(** The initial values of the state variables, from
    [editingEntry = route.params?.entry]. *)
Definition initialScreen (editingEntry : option Entry.t) : Screen :=
  {| title := or_else (match editingEntry with
                       | Some e => Entry.title e | None => None end) [];
     content := or_else (match editingEntry with
                         | Some e => Entry.content e | None => None end) [];
     media := or_null (match editingEntry with
                       | Some e => Entry.media_url e | None => None end);
     userId := None;
     loading := false |}.

(** How a call to a collaborator completes: with a value, or by throwing
    (a rejected promise, for an awaited call). *)
Inductive Completion (A : Type) : Type :=
| Normal (a : A)
| Throws.
Arguments Throws {A}.

(** The collaborators, as the answers they give during one run of a
    handler. *)
Record World := {
  requestMediaLibraryPermissionsAsync : Completion PermissionResponse;
  launchImageLibraryAsync : Completion ImagePickerResult;
  Date_now : Z;
  decode : jsstring -> Completion ArrayBuffer;
  storage_upload :
    jsstring -> jsstring -> ArrayBuffer -> FileOptions ->
    Completion (option ClientError);
  storage_getPublicUrl : jsstring -> jsstring -> Completion jsstring;
  from_upsert : jsstring -> Payload.t -> Completion (option ClientError);
  auth_getUser : Completion (option jsstring)
}.

(** What a handler does to the outside, in order. Calls whose answer
    matters to the claims carry it. *)
Inductive Event : Type :=
| RequestPermissions
| LaunchImageLibrary
| StorageUpload (bucket path : jsstring) (body : ArrayBuffer)
    (options : FileOptions) (answer : Completion (option ClientError))
| StorageGetPublicUrl (bucket path : jsstring)
| FromUpsert (table : jsstring) (payload : Payload.t)
    (answer : Completion (option ClientError))
| AuthGetUser
| AlertAlert (heading text : jsstring)
| NavigationGoBack.

(* ================================================================== *)
(** ** The monad of handlers *)
(* ================================================================== *)

(** A statement ends by falling through with a value, by [return], or by
    an exception. *)
Inductive Result (A : Type) : Type :=
| Value (a : A)
| Returned
| Thrown.
Arguments Returned {A}.
Arguments Thrown {A}.

(** A handler body: from the pending state of the component to its result,
    the new pending state and the events it caused. *)
Definition M (A : Type) : Type := Screen -> Result A * Screen * list Event.

Definition ret {A} (a : A) : M A := fun s => (Value a, s, []).

Definition bind {A B} (m : M A) (k : A -> M B) : M B :=
  fun s =>
    match m s with
    | (Value a, s1, t1) =>
        match k a s1 with (r, s2, t2) => (r, s2, t1 ++ t2) end
    | (Returned, s1, t1) => (Returned, s1, t1)
    | (Thrown, s1, t1) => (Thrown, s1, t1)
    end.

Declare Scope handler_scope.
Delimit Scope handler_scope with handler.
Notation "x <- m ;; k" := (bind m (fun x => k))
  (at level 61, m at next level, right associativity) : handler_scope.
Notation "m ;; k" := (bind m (fun _ => k))
  (at level 61, right associativity) : handler_scope.
Open Scope handler_scope.

(** [return;] *)
Definition return_ {A} : M A := fun s => (Returned, s, []).

Definition throw {A} : M A := fun s => (Thrown, s, []).

Definition emit (e : Event) : M unit := fun s => (Value tt, s, [e]).

Definition modify (f : Screen -> Screen) : M unit :=
  fun s => (Value tt, f s, []).

(** The completion of a call, as a statement. *)
Definition complete {A} (c : Completion A) : M A :=
  match c with
  | Normal a => ret a
  | Throws => throw
  end.

(** [try { body } catch (error) { handler } finally { cleanup }]: the
    handler runs when the body throws; the cleanup runs in every case, and
    unless it ends abruptly itself the statement ends as the body (or the
    handler) did. *)
Definition try_catch_finally (body handler cleanup : M unit) : M unit :=
  fun s =>
    match body s with
    | (r1, s1, t1) =>
        match (match r1 with
               | Thrown =>
                   match handler s1 with (r, s', t) => (r, s', t1 ++ t) end
               | _ => (r1, s1, t1)
               end) with
        | (r2, s2, t2) =>
            match cleanup s2 with
            | (Value _, s3, t3) => (r2, s3, t2 ++ t3)
            | (r3, s3, t3) => (r3, s3, t2 ++ t3)
            end
        end
    end.

(** Running a handler on a rendered state: the state the component is left
    in, and the events. *)
Definition run (h : M unit) (s : Screen) : Screen * list Event :=
  match h s with (_, s', t) => (s', t) end.


(** A handler closes over the state of the render it belongs to and
    starts from that same state. *)
Definition onPress (handler : Screen -> M unit) (s : Screen)
  : Screen * list Event :=
  run (handler s) s.

(* ================================================================== *)
(** ** The handlers of EntryEditScreen *)
(* ================================================================== *)

(** A value of [string | null] inside a template literal. *)
Definition interpolate (v : option jsstring) : jsstring :=
  match v with
  | Some u => u
  | None => lit "null"
  end.

(** [asset.type === "video"] *)
Definition isVideo (asset : Asset.t) : bool :=
  match Asset.type asset with
  | Some t => Js.eqb t (lit "video")
  | None => false
  end.

(** [(asset.type === "video" ? "mp4" : "png")] *)
Definition fallbackExt (asset : Asset.t) : jsstring :=
  if isVideo asset then lit "mp4" else lit "png".

(** [(asset.type === "video" ? "video/mp4" : "image/png")] *)
Definition fallbackMime (asset : Asset.t) : jsstring :=
  if isVideo asset then lit "video/mp4" else lit "image/png".

(** [asset.fileName?.split(".").pop() || (asset.type === "video" ? "mp4" : "png")] *)
Definition fileExt (asset : Asset.t) : jsstring :=
  or_else
    (match Asset.fileName asset with
     | Some name => pop (split dot name)
     | None => None
     end)
    (fallbackExt asset).

(** [`${userId}_${Date.now()}.${fileExt}`] *)
Definition fileName (userId : option jsstring) (now : Z) (asset : Asset.t)
  : jsstring :=
  interpolate userId ++ lit "_" ++ numberToString now ++ lit "."
    ++ fileExt asset.

(** [asset.mimeType || (asset.type === "video" ? "video/mp4" : "image/png")] *)
Definition mimeType (asset : Asset.t) : jsstring :=
  or_else (Asset.mimeType asset) (fallbackMime asset).

(** [`entries/${fileName}`] *)
Definition storagePath (name : jsstring) : jsstring := lit "entries/" ++ name.

(** The texts of the notices; the letters outside ASCII are given by their
    code units (a-tilde 227, a-acute 225, a-grave 224, i-acute 237,
    u-acute 250, c-cedilla 231). *)
Definition txt_permissao_necessaria : jsstring :=
  lit "Permiss" ++ [227%N] ++ lit "o necess" ++ [225%N] ++ lit "ria".
Definition txt_precisamos_de_acesso : jsstring :=
  lit "Precisamos de acesso " ++ [224%N]
    ++ lit " sua galeria para adicionar m" ++ [237%N] ++ lit "dia.".
Definition txt_falha_upload : jsstring :=
  lit "Falha ao fazer upload da m" ++ [237%N] ++ lit "dia".
Definition txt_usuario_nao_identificado : jsstring :=
  lit "Usu" ++ [225%N] ++ lit "rio n" ++ [227%N] ++ lit "o identificado".
Definition txt_adicione_titulo : jsstring :=
  lit "Adicione um t" ++ [237%N] ++ lit "tulo ou conte" ++ [250%N]
    ++ lit "do para salvar".
Definition txt_falha_salvar : jsstring :=
  lit "Falha ao salvar a anota" ++ [231%N; 227%N] ++ lit "o".

Definition notice_permission : Event :=
  AlertAlert txt_permissao_necessaria txt_precisamos_de_acesso.
Definition notice_upload_failed : Event :=
  AlertAlert (lit "Erro") txt_falha_upload.
Definition notice_unauthenticated : Event :=
  AlertAlert (lit "Erro") txt_usuario_nao_identificado.
Definition notice_empty_note : Event :=
  AlertAlert (lit "Aviso") txt_adicione_titulo.
Definition notice_save_failed : Event :=
  AlertAlert (lit "Erro") txt_falha_salvar.

(** The effect of the component: ask who the current user is. *)
Definition getUser (w : World) : M unit :=
  user <- (emit AuthGetUser ;; complete (auth_getUser w)) ;;
  match user with
  | Some uid => modify (setUserId (Some uid))
  | None => ret tt
  end.

(** [result.assets[0]] followed by a property read: throws when there is no
    first asset. *)
Definition firstAsset (result : ImagePickerResult) : M Asset.t :=
  match assets result with
  | asset :: _ => ret asset
  | [] => throw
  end.

(** [decode(asset.base64!)]: the assertion is erased at run time, and
    [decode] reads the length of its argument. *)
Definition decodeBase64 (w : World) (asset : Asset.t) : M ArrayBuffer :=
  match Asset.base64 asset with
  | Some data => complete (decode w data)
  | None => throw
  end.

Definition upload (w : World) (bucket path : jsstring) (body : ArrayBuffer)
    (options : FileOptions) : M (option ClientError) :=
  let answer := storage_upload w bucket path body options in
  emit (StorageUpload bucket path body options answer) ;;
  complete answer.

Definition getPublicUrl (w : World) (bucket path : jsstring) : M jsstring :=
  emit (StorageGetPublicUrl bucket path) ;;
  complete (storage_getPublicUrl w bucket path).

Definition upsertEntry (w : World) (table : jsstring) (payload : Payload.t)
  : M (option ClientError) :=
  let answer := from_upsert w table payload in
  emit (FromUpsert table payload answer) ;;
  complete answer.

Definition pickMedia (w : World) (s : Screen) : M unit :=
  permissionResult <-
    (emit RequestPermissions ;;
     complete (requestMediaLibraryPermissionsAsync w)) ;;
  if negb (granted permissionResult) then
    emit notice_permission ;;
    return_
  else
    result <- (emit LaunchImageLibrary ;;
               complete (launchImageLibraryAsync w)) ;;
    if negb (canceled result) && truthy_opt (userId s) then
      modify (setLoading true) ;;
      try_catch_finally
        (asset <- firstAsset result ;;
         let name := fileName (userId s) (Date_now w) asset in
         let mime := mimeType asset in
         body <- decodeBase64 w asset ;;
         error <- upload w (lit "galeria") (storagePath name) body
                    {| contentType := mime; upsert := true |} ;;
         match error with
         | Some err =>
             emit (AlertAlert (lit "Erro") (message err)) ;;
             return_
         | None =>
             publicUrl <- getPublicUrl w (lit "galeria") (storagePath name) ;;
             modify (setMedia (Some publicUrl))
         end)
        (emit notice_upload_failed)
        (modify (setLoading false))
    else ret tt.

Definition removeMedia (s : Screen) : M unit :=
  modify (setMedia None).

Definition saveEntry (w : World) (editingEntry : option Entry.t) (s : Screen)
  : M unit :=
  if negb (truthy_opt (userId s)) then
    emit notice_unauthenticated ;;
    return_
  else if negb (truthy (trim (title s))) && negb (truthy (trim (content s)))
  then
    emit notice_empty_note ;;
    return_
  else
    modify (setLoading true) ;;
    try_catch_finally
      (let payload :=
         {| Payload.id := match editingEntry with
                          | Some e => Entry.id e
                          | None => None
                          end;
            Payload.user_id := userId s;
            Payload.title := trim (title s);
            Payload.content := trim (content s);
            Payload.media_url := media s |} in
       error <- upsertEntry w (lit "entries") payload ;;
       match error with
       | Some err => emit (AlertAlert (lit "Erro") (message err))
       | None => emit NavigationGoBack
       end)
      (emit notice_save_failed)
      (modify (setLoading false)).

(** Events by kind, for counting the calls of a trace. *)
Definition isStorageUpload (e : Event) : bool :=
  match e with StorageUpload _ _ _ _ _ => true | _ => false end.

Definition isStorageCall (e : Event) : bool :=
  match e with
  | StorageUpload _ _ _ _ _ | StorageGetPublicUrl _ _ => true
  | _ => false
  end.

Definition isRecordStoreCall (e : Event) : bool :=
  match e with FromUpsert _ _ _ => true | _ => false end.

Definition isNotice (e : Event) : bool :=
  match e with AlertAlert _ _ => true | _ => false end.

(** [raw] is [kept] between two runs of whitespace, and [kept] neither
    starts nor ends with whitespace. *)
Definition Trimmed (raw kept : jsstring) : Prop :=
  (exists before after,
      raw = before ++ kept ++ after
      /\ forallb isWhiteSpace before = true
      /\ forallb isWhiteSpace after = true)
  /\ match kept with c :: _ => isWhiteSpace c = false | [] => True end
  /\ match rev kept with c :: _ => isWhiteSpace c = false | [] => True end.

(** *** Worlds and states used as examples *)

Definition photo : Asset.t :=
  Asset.mk (Some (lit "IMG_0001.jpg")) (Some (lit "image"))
    (Some (lit "image/jpeg")) (Some (lit "aGk=")).

Definition world_ok : World :=
  {| requestMediaLibraryPermissionsAsync := Normal {| granted := true |};
     launchImageLibraryAsync :=
       Normal {| canceled := false; assets := [photo] |};
     Date_now := 1700000000000;
     decode := fun _ => Normal [Byte.x68; Byte.x69];
     storage_upload := fun _ _ _ _ => Normal None;
     storage_getPublicUrl :=
       fun bucket path => Normal (lit "https://cdn/" ++ bucket ++ lit "/" ++ path);
     from_upsert := fun _ _ => Normal None;
     auth_getUser := Normal (Some (lit "u1")) |}.

Definition world_upload_rejected : World :=
  {| requestMediaLibraryPermissionsAsync := Normal {| granted := true |};
     launchImageLibraryAsync :=
       Normal {| canceled := false; assets := [photo] |};
     Date_now := 1700000000000;
     decode := fun _ => Normal [Byte.x68; Byte.x69];
     storage_upload :=
       fun _ _ _ _ => Normal (Some {| message := lit "quota exceeded" |});
     storage_getPublicUrl :=
       fun bucket path => Normal (lit "https://cdn/" ++ bucket ++ lit "/" ++ path);
     from_upsert := fun _ _ => Normal None;
     auth_getUser := Normal (Some (lit "u1")) |}.

Definition draft_u1 : Screen :=
  {| title := lit "  Groceries "; content := lit ""; 
     media := Some (lit "https://cdn/galeria/entries/old.png");
     userId := Some (lit "u1"); loading := false |}.

Definition draft_anonymous : Screen :=
  {| title := lit "Groceries"; content := lit "";
     media := None; userId := None; loading := false |}.

Definition draft_blank_anonymous : Screen :=
  {| title := lit ""; content := lit "  ";
     media := None; userId := None; loading := false |}.

Definition draft_blank_u1 : Screen :=
  {| title := lit " "; content := lit "";
     media := None; userId := Some (lit "u1"); loading := false |}.

Arguments lit : simpl never.
Arguments fileName : simpl never.
Arguments mimeType : simpl never.
Arguments storagePath : simpl never.
Arguments trim : simpl never.

(* ================================================================== *)
(** ** The other screens: handlers over any state and any events *)
(* ================================================================== *)

(** The same monad as [M], for a screen with state [St] and events [Ev]. *)
Section Task.

Variables St Ev : Type.

Definition Task (A : Type) : Type := St -> Result A * St * list Ev.

Definition tret {A} (a : A) : Task A := fun s => (Value a, s, []).

Definition tbind {A B} (m : Task A) (k : A -> Task B) : Task B :=
  fun s =>
    match m s with
    | (Value a, s1, t1) =>
        match k a s1 with (r, s2, t2) => (r, s2, t1 ++ t2) end
    | (Returned, s1, t1) => (Returned, s1, t1)
    | (Thrown, s1, t1) => (Thrown, s1, t1)
    end.

Definition treturn {A} : Task A := fun s => (Returned, s, []).

Definition tthrow {A} : Task A := fun s => (Thrown, s, []).

Definition temit (e : Ev) : Task unit := fun s => (Value tt, s, [e]).

Definition tmodify (f : St -> St) : Task unit :=
  fun s => (Value tt, f s, []).

Definition tcomplete {A} (c : Completion A) : Task A :=
  match c with
  | Normal a => tret a
  | Throws => tthrow
  end.

(** A call of an async function whose promise is dropped ([f();] without
    [await]): its effects happen, how it ends is not seen by the caller. *)
Definition detached (m : Task unit) : Task unit :=
  fun s => match m s with (_, s', t) => (Value tt, s', t) end.

Definition trun (h : Task unit) (s : St) : St * list Ev :=
  match h s with (_, s', t) => (s', t) end.

End Task.

Arguments tret {St Ev A} a.
Arguments treturn {St Ev A}.
Arguments tthrow {St Ev A}.
Arguments temit {St Ev} e.
Arguments tmodify {St Ev} f.
Arguments tcomplete {St Ev A} c.

Declare Scope task_scope.
Delimit Scope task_scope with task.
Notation "x <- m ;; k" := (tbind m (fun x => k))
  (at level 61, m at next level, right associativity) : task_scope.
Notation "m ;; k" := (tbind m (fun _ => k))
  (at level 61, right associativity) : task_scope.

(** *** LoginScreen *)

Module Login.

Local Open Scope task_scope.

(** The state variables of the screen. *)
Record Form := {
  email : jsstring;
  senha : jsstring;
  loading : bool
}.

Definition setLoading (b : bool) (f : Form) : Form :=
  {| email := email f; senha := senha f; loading := b |}.

Record World := {
  auth_signInWithPassword :
    jsstring -> jsstring -> Completion (option ClientError)
}.

Inductive Event : Type :=
| SignInWithPassword (email password : jsstring)
    (answer : Completion (option ClientError))
| AlertAlert (heading text : jsstring)
| NavigationReplace (name : jsstring).

Definition notice_fill_in : Event :=
  AlertAlert (lit "Erro") (lit "Por favor, preencha todos os campos").

Definition signInWithPassword (w : World) (email password : jsstring)
  : Task Form Event (option ClientError) :=
  let answer := auth_signInWithPassword w email password in
  temit (SignInWithPassword email password answer) ;;
  tcomplete answer.

Definition handleLogin (w : World) (f : Form) : Task Form Event unit :=
  if negb (truthy (email f)) || negb (truthy (senha f)) then
    temit notice_fill_in ;;
    treturn
  else
    tmodify (setLoading true) ;;
    error <- signInWithPassword w (email f) (senha f) ;;
    tmodify (setLoading false) ;;
    match error with
    | Some err => temit (AlertAlert (lit "Erro") (message err))
    | None => temit (NavigationReplace (lit "Home"))
    end.

Definition onPress (handler : Form -> Task Form Event unit) (f : Form)
  : Form * list Event :=
  trun (handler f) f.

End Login.

(** *** HomeScreen *)

Module Home.

Local Open Scope task_scope.

(** The state variables of the screen; the rows are those of the table. *)
Record State := {
  entries : list Entry.t;
  loading : bool;
  refreshing : bool
}.

Definition setEntries (l : list Entry.t) (s : State) : State :=
  {| entries := l; loading := loading s; refreshing := refreshing s |}.

Definition setLoading (b : bool) (s : State) : State :=
  {| entries := entries s; loading := b; refreshing := refreshing s |}.

Definition setRefreshing (b : bool) (s : State) : State :=
  {| entries := entries s; loading := loading s; refreshing := b |}.

Record World := {
  select_order : Completion (option (list Entry.t));
  delete_eq : jsstring -> Completion (option ClientError);
  auth_signOut : Completion (option ClientError)
}.

Inductive Event : Type :=
| SelectOrder (table columns orderBy : jsstring) (ascending : bool)
| DeleteEq (table column value : jsstring)
| AuthSignOut
| NavigationReplace (name : jsstring).

(** [data || []] for [data : any[] | null]: an array, even empty, is
    truthy. *)
Definition or_empty (data : option (list Entry.t)) : list Entry.t :=
  match data with
  | Some rows => rows
  | None => []
  end.

Definition loadEntries (w : World) : Task State Event unit :=
  tmodify (setRefreshing true) ;;
  data <- (temit (SelectOrder (lit "entries") (lit "*") (lit "created_at")
                    false) ;;
           tcomplete (select_order w)) ;;
  tmodify (setEntries (or_empty data)) ;;
  tmodify (setLoading false) ;;
  tmodify (setRefreshing false).

(** A button of [Alert.alert] and the dialog it belongs to. *)
Record Button := {
  text : jsstring;
  style : jsstring;
  onPress : option (Task State Event unit)
}.

Record Dialog := {
  heading : jsstring;
  body : jsstring;
  buttons : list Button
}.

Definition quote : code_unit := 34%N.

(** [`Deseja excluir "${title}"?`] *)
Definition txt_deseja_excluir (title : jsstring) : jsstring :=
  lit "Deseja excluir " ++ [quote] ++ title ++ [quote] ++ lit "?".

Definition handleDelete (w : World) (id title : jsstring) : Dialog :=
  {| heading := lit "Excluir";
     body := txt_deseja_excluir title;
     buttons :=
       [ {| text := lit "Cancelar"; style := lit "cancel"; onPress := None |};
         {| text := lit "Excluir"; style := lit "destructive";
            onPress :=
              Some ((temit (DeleteEq (lit "entries") (lit "id") id) ;;
                     tcomplete (delete_eq w id)) ;;
                    detached (loadEntries w)) |} ] |}.

Definition handleLogout (w : World) : Dialog :=
  {| heading := lit "Sair";
     body := lit "Deseja sair da sua conta?";
     buttons :=
       [ {| text := lit "Cancelar"; style := lit "cancel"; onPress := None |};
         {| text := lit "Sair"; style := lit "destructive";
            onPress :=
              Some ((temit AuthSignOut ;; tcomplete (auth_signOut w)) ;;
                    temit (NavigationReplace (lit "Login"))) |} ] |}.

(** The user presses the button of that index: its [onPress], when it has
    one, runs. *)
Definition press (d : Dialog) (index : nat) (s : State) : State * list Event :=
  match nth_error (buttons d) index with
  | Some button =>
      match onPress button with
      | Some handler => trun handler s
      | None => (s, [])
      end
  | None => (s, [])
  end.

End Home.

(** *** Tactics for the runs of the handlers *)

(** The handler unfolded down to the answers of the collaborators. *)
Ltac unfold_run :=
  unfold onPress, run, pickMedia, saveEntry, removeMedia, getUser,
    try_catch_finally, firstAsset, decodeBase64, upload, getPublicUrl,
    upsertEntry, complete, bind, emit, modify, ret, return_, throw;
  cbn [fst snd app
       requestMediaLibraryPermissionsAsync launchImageLibraryAsync Date_now
       decode storage_upload storage_getPublicUrl from_upsert auth_getUser
       granted canceled assets negb andb].

(** One case split on the next answer the run depends on. *)
Ltac case_answer :=
  match goal with
  | |- context [match ?c with Normal _ => _ | Throws => _ end] =>
      destruct c as [?|] eqn:?
  | H : context [match ?c with Normal _ => _ | Throws => _ end] |- _ =>
      destruct c as [?|] eqn:?
  | |- context [match ?o with Some _ => _ | None => _ end] =>
      destruct o as [?|] eqn:?
  | H : context [match ?o with Some _ => _ | None => _ end] |- _ =>
      destruct o as [?|] eqn:?
  | |- context [match ?l with [] => _ | _ :: _ => _ end] =>
      destruct l as [|? ?] eqn:?
  | H : context [match ?l with [] => _ | _ :: _ => _ end] |- _ =>
      destruct l as [|? ?] eqn:?
  | |- context [if ?b then _ else _] => destruct b eqn:?
  | H : context [if ?b then _ else _] |- _ => destruct b eqn:?
  end.

(** Going through a membership in a trace that is known event by event:
    the events of another kind are discarded. *)
Ltac scan H :=
  cbn in H;
  repeat match type of H with
         | _ \/ _ => destruct H as [H|H]; [try discriminate H|]
         | False => contradiction
         end.

(** Every branch of a run, one goal each. *)
Ltac all_runs := unfold_run; repeat (case_answer; cbn).

(** The handlers of the other screens unfolded. *)
Ltac unfold_task :=
  unfold Login.onPress, Login.handleLogin, Login.signInWithPassword,
    Home.press, Home.handleDelete, Home.handleLogout, Home.loadEntries,
    trun, detached, tcomplete, tbind, temit, tmodify, tret, treturn, tthrow;
  cbn [fst snd app negb andb orb nth_error
       Login.auth_signInWithPassword
       Home.select_order Home.delete_eq Home.auth_signOut
       Home.buttons Home.onPress].

(* ================================================================== *)
(** ** Sanity checks of the string operations *)
(* ================================================================== *)

Example split_abc : split dot (lit "a.b.c") = [lit "a"; lit "b"; lit "c"].
Proof. reflexivity. Qed.

Example split_empty : split dot (lit "") = [lit ""].
Proof. reflexivity. Qed.

Example split_trailing : split dot (lit "photo.") = [lit "photo"; lit ""].
Proof. reflexivity. Qed.

Example trim_inner_kept : trim (lit "  a b  ") = lit "a b".
Proof. reflexivity. Qed.

Example trim_nbsp : trim ([160; 9; 10] ++ lit "x" ++ [8232; 65279])%N = lit "x".
Proof. reflexivity. Qed.

Example numberToString_ms : numberToString 1700000000000 = lit "1700000000000".
Proof. reflexivity. Qed.

Example numberToString_neg : numberToString (-5) = lit "-5".
Proof. reflexivity. Qed.

Example fileExt_jpg :
  fileExt (Asset.mk (Some (lit "IMG_0001.jpg")) (Some (lit "image")) None None)
  = lit "jpg".
Proof. reflexivity. Qed.

Example fileName_example :
  fileName (Some (lit "u1")) 1700000000000
    (Asset.mk (Some (lit "holiday.clip.MOV")) (Some (lit "video")) None None)
  = lit "u1_1700000000000.MOV".
Proof. reflexivity. Qed.

(* ================================================================== *)
(** ** Lemmas on [split] and [pop] *)
(* ================================================================== *)

Section SplitPop.

Variable sep : code_unit.

Lemma split_not_nil (s : jsstring) : split sep s <> [].
Proof.
  destruct s as [|c rest]; simpl; [discriminate|].
  destruct (N.eqb c sep); [discriminate|].
  destruct (split sep rest); discriminate.
Qed.

Lemma pop_cons {A} (x : A) (l : list A) :
  l <> [] -> pop (x :: l) = pop l.
Proof. destruct l; [congruence | reflexivity]. Qed.

(** A string without the separator is one segment. *)
Lemma split_without_sep (s : jsstring) :
  ~ In sep s -> split sep s = [s].
Proof.
  induction s as [|c rest IH]; intros Hn; [reflexivity|].
  simpl. destruct (N.eqb_spec c sep) as [->|Hc].
  - exfalso. apply Hn. now left.
  - rewrite IH; [reflexivity|]. intros Hin. apply Hn. now right.
Qed.

Lemma pop_app {A} (l1 l2 : list A) :
  l2 <> [] -> pop (l1 ++ l2) = pop l2.
Proof.
  intros Hne. induction l1 as [|x l1 IH]; [reflexivity|].
  simpl app. rewrite pop_cons; [exact IH|].
  destruct l1; simpl; [exact Hne | discriminate].
Qed.

(** Splitting at an occurrence of the separator: the segments of what
    follows it are the last segments of the whole. *)
Lemma split_app_sep (a b : jsstring) :
  exists init, init <> [] /\ split sep (a ++ sep :: b) = init ++ split sep b.
Proof.
  induction a as [|c a [init [Hne IH]]]; simpl.
  - rewrite N.eqb_refl. exists [[]]. split; [discriminate | reflexivity].
  - destruct (N.eqb c sep).
    + exists ([] :: init). split; [discriminate|]. now rewrite IH.
    + rewrite IH. destruct init as [|seg segs]; [congruence|].
      exists ((c :: seg) :: segs). split; [discriminate | reflexivity].
Qed.

(** The last segment starts after the last separator. *)
Lemma pop_split_app (a b : jsstring) :
  pop (split sep (a ++ sep :: b)) = pop (split sep b).
Proof.
  destruct (split_app_sep a b) as [init [_ ->]].
  apply pop_app, split_not_nil.
Qed.

(** The last segment of a string that ends in a separator-free suffix
    after a separator is that suffix. *)
Lemma pop_split_suffix (a e : jsstring) :
  ~ In sep e -> pop (split sep (a ++ sep :: e)) = Some e.
Proof.
  intros Hn. rewrite pop_split_app, split_without_sep by exact Hn.
  reflexivity.
Qed.

(** No segment contains the separator. *)
Lemma split_segments_free (s seg : jsstring) :
  In seg (split sep s) -> ~ In sep seg.
Proof.
  revert seg. induction s as [|c rest IH]; simpl; intros seg Hin.
  - destruct Hin as [<-|[]]. intros [].
  - destruct (N.eqb_spec c sep) as [->|Hc].
    + destruct Hin as [<-|Hin]; [intros [] | now apply IH].
    + pose proof (split_not_nil rest) as Hne.
      destruct (split sep rest) as [|x l]; [congruence|].
      destruct Hin as [<-|Hin].
      * intros [Heq|Hin']; [congruence|].
        revert Hin'. apply IH. now left.
      * apply IH. now right.
Qed.

Lemma pop_In {A} (l : list A) (x : A) : pop l = Some x -> In x l.
Proof.
  induction l as [|y l IH]; [discriminate|].
  destruct l as [|z l].
  - simpl. intros [= ->]. now left.
  - intros H. right. apply IH. exact H.
Qed.

Lemma pop_split_free (s e : jsstring) :
  pop (split sep s) = Some e -> ~ In sep e.
Proof. intros H. eapply split_segments_free, pop_In, H. Qed.

Lemma pop_split_some (s : jsstring) : exists e, pop (split sep s) = Some e.
Proof.
  pose proof (split_not_nil s) as Hne.
  induction (split sep s) as [|x l IH]; [congruence|].
  destruct l as [|y l]; [now exists x|].
  rewrite pop_cons by discriminate. apply IH. discriminate.
Qed.

End SplitPop.

(* ================================================================== *)
(** ** The name under which a picked asset is stored *)
(* ================================================================== *)

Lemma fileExt_unfold (asset : Asset.t) :
  fileExt asset =
  or_else (match Asset.fileName asset with
           | Some name => pop (split dot name)
           | None => None
           end) (fallbackExt asset).
Proof. reflexivity. Qed.

Lemma fallbackExt_dot_free (asset : Asset.t) : ~ In dot (fallbackExt asset).
Proof.
  unfold fallbackExt. destruct (isVideo asset); vm_compute;
    intuition discriminate.
Qed.

(** The extension never contains a dot: it is a last segment of a split at
    dots, or one of the two fallbacks. *)
Lemma fileExt_dot_free (asset : Asset.t) : ~ In dot (fileExt asset).
Proof.
  rewrite fileExt_unfold. destruct (Asset.fileName asset) as [name|]; simpl.
  - destruct (pop_split_some dot name) as [e He]. rewrite He. simpl.
    destruct (truthy e).
    + eapply pop_split_free, He.
    + apply fallbackExt_dot_free.
  - apply fallbackExt_dot_free.
Qed.

(** A string is cut at its last dot in one way only. *)
Lemma last_dot_unique (x y e1 e2 : jsstring) :
  ~ In dot e1 -> ~ In dot e2 ->
  x ++ dot :: e1 = y ++ dot :: e2 -> x = y /\ e1 = e2.
Proof.
  intros H1 H2 Heq.
  assert (He : Some e1 = Some e2).
  { rewrite <- (pop_split_suffix dot x e1 H1),
      <- (pop_split_suffix dot y e2 H2).
    now rewrite Heq. }
  injection He as ->. split; [|reflexivity].
  eapply app_inv_tail, Heq.
Qed.

Lemma fileName_shape (u : option jsstring) (now : Z) (asset : Asset.t) :
  fileName u now asset =
  (interpolate u ++ lit "_" ++ numberToString now) ++ dot :: fileExt asset.
Proof. unfold fileName. now rewrite <- !app_assoc. Qed.

(** C1. Two different owner ids never get the same storage key at the same
    capture timestamp: the name [<ownerId>_<timestamp>.<extension>], and the
    path [entries/<name>] it is uploaded under, differ for [o1 <> o2] and
    equal timestamps, whatever the picked assets are (in particular for one
    and the same asset). *)
Theorem fileName_owner_injective
    (o1 o2 : jsstring) (now : Z) (a1 a2 : Asset.t) :
  o1 <> o2 ->
  fileName (Some o1) now a1 <> fileName (Some o2) now a2
  /\ storagePath (fileName (Some o1) now a1)
     <> storagePath (fileName (Some o2) now a2).
Proof.
  intros Hne.
  assert (Hname : fileName (Some o1) now a1 <> fileName (Some o2) now a2).
  { rewrite !fileName_shape. intros Heq.
    apply last_dot_unique in Heq; try apply fileExt_dot_free.
    destruct Heq as [Heq _]. simpl interpolate in Heq.
    apply app_inv_tail in Heq. contradiction. }
  split; [exact Hname|].
  unfold storagePath. intros Heq. apply app_inv_head in Heq. contradiction.
Qed.

Lemma fileName_owner_injective_witness :
  lit "alice" <> lit "bob"
  /\ fileName (Some (lit "alice")) 1700000000000
       (Asset.mk (Some (lit "a.png")) (Some (lit "image")) None None)
     <> fileName (Some (lit "bob")) 1700000000000
          (Asset.mk (Some (lit "a.png")) (Some (lit "image")) None None).
Proof.
  assert (H : lit "alice" <> lit "bob") by (vm_compute; discriminate).
  split; [exact H|].
  apply (fileName_owner_injective 1700000000000
           (Asset.mk (Some (lit "a.png")) (Some (lit "image")) None None)
           (Asset.mk (Some (lit "a.png")) (Some (lit "image")) None None) H).
Defined.

(** C5. A filename with an extension, that is, of the form [base.ext] with
    [ext] not empty and free of dots (the part after the last dot), keeps
    that extension verbatim: it is the derived extension, and the storage
    key ends in [.ext]. *)
Theorem fileName_keeps_extension
    (u : option jsstring) (now : Z) (asset : Asset.t) (base ext : jsstring) :
  Asset.fileName asset = Some (base ++ dot :: ext) ->
  ext <> [] ->
  ~ In dot ext ->
  fileExt asset = ext
  /\ fileName u now asset
     = (interpolate u ++ lit "_" ++ numberToString now) ++ dot :: ext
  /\ storagePath (fileName u now asset)
     = (lit "entries/" ++ interpolate u ++ lit "_" ++ numberToString now)
         ++ dot :: ext.
Proof.
  intros Hname Hne Hfree.
  assert (Hext : fileExt asset = ext).
  { rewrite fileExt_unfold, Hname, pop_split_suffix by exact Hfree.
    destruct ext; [congruence | reflexivity]. }
  split; [exact Hext|].
  rewrite fileName_shape, Hext. split; [reflexivity|].
  unfold storagePath. now rewrite <- !app_assoc.
Qed.

Lemma fileName_keeps_extension_witness :
  fileExt (Asset.mk (Some (lit "trip.2024.JPeG")) (Some (lit "image"))
             None None) = lit "JPeG".
Proof.
  apply (fileName_keeps_extension (Some (lit "u1")) 1700000000000
           (Asset.mk (Some (lit "trip.2024.JPeG")) (Some (lit "image"))
              None None)
           (lit "trip.2024") (ext := lit "JPeG")).
  - reflexivity.
  - discriminate.
  - vm_compute. intuition discriminate.
Defined.

(** C6. Without a filename the extension is [mp4] for a video and [png]
    otherwise; without a declared MIME type the MIME type is [video/mp4]
    for a video and [image/png] otherwise. *)
Theorem fallback_tables (asset : Asset.t) :
  (Asset.fileName asset = None ->
     (Asset.type asset = Some (lit "video") -> fileExt asset = lit "mp4")
     /\ (Asset.type asset <> Some (lit "video") -> fileExt asset = lit "png"))
  /\ (Asset.mimeType asset = None ->
     (Asset.type asset = Some (lit "video") ->
        mimeType asset = lit "video/mp4")
     /\ (Asset.type asset <> Some (lit "video") ->
        mimeType asset = lit "image/png")).
Proof.
  assert (Hv : Asset.type asset = Some (lit "video") -> isVideo asset = true).
  { intros H. unfold isVideo. rewrite H. reflexivity. }
  assert (Hn : Asset.type asset <> Some (lit "video") ->
               isVideo asset = false).
  { intros H. unfold isVideo. destruct (Asset.type asset) as [t|]; auto.
    unfold Js.eqb. destruct (list_eq_dec N.eq_dec t (lit "video")); auto.
    subst t. congruence. }
  split; intros Habs; split; intros Hty.
  - rewrite fileExt_unfold, Habs. unfold fallbackExt. now rewrite Hv.
  - rewrite fileExt_unfold, Habs. unfold fallbackExt. now rewrite Hn.
  - unfold mimeType, fallbackMime. rewrite Habs. simpl. now rewrite Hv.
  - unfold mimeType, fallbackMime. rewrite Habs. simpl. now rewrite Hn.
Qed.

Lemma fallback_tables_witness :
  fileExt (Asset.mk None (Some (lit "video")) None None) = lit "mp4"
  /\ fileExt (Asset.mk None (Some (lit "image")) None None) = lit "png"
  /\ fileExt (Asset.mk None None None None) = lit "png"
  /\ mimeType (Asset.mk None (Some (lit "video")) None None)
     = lit "video/mp4"
  /\ mimeType (Asset.mk None (Some (lit "livePhoto")) None None)
     = lit "image/png".
Proof.
  split; [|split; [|split; [|split]]].
  - apply (fallback_tables (Asset.mk None (Some (lit "video")) None None));
      reflexivity.
  - apply (fallback_tables (Asset.mk None (Some (lit "image")) None None));
      [reflexivity | vm_compute; discriminate].
  - apply (fallback_tables (Asset.mk None None None None));
      [reflexivity | discriminate].
  - apply (fallback_tables (Asset.mk None (Some (lit "video")) None None));
      reflexivity.
  - apply (fallback_tables (Asset.mk None (Some (lit "livePhoto")) None None));
      [reflexivity | vm_compute; discriminate].
Defined.

(** A name either has no dot, or is cut at its last dot. *)
Lemma last_dot_decomp (name : jsstring) :
  ~ In dot name
  \/ exists base ext, name = base ++ dot :: ext /\ ~ In dot ext.
Proof.
  induction name as [|c name [Hfree|[base [ext [-> Hfree]]]]].
  - left. intros [].
  - destruct (N.eq_dec c dot) as [->|Hc].
    + right. exists [], name. now split.
    + left. intros [Heq|Hin]; [congruence | contradiction].
  - right. exists (c :: base), ext. now split.
Qed.

(** The last dot-separated segment is empty for the empty name and for
    the names that end in a dot, and for no other. *)
Lemma last_segment_empty_iff (name : jsstring) :
  pop (split dot name) = Some []
  <-> name = [] \/ exists base, name = base ++ [dot].
Proof.
  split.
  - intros Hpop. destruct (last_dot_decomp name) as [Hfree|[base [ext [-> Hfree]]]].
    + rewrite split_without_sep in Hpop by exact Hfree.
      injection Hpop as ->. now left.
    + rewrite pop_split_suffix in Hpop by exact Hfree.
      injection Hpop as ->. right. now exists base.
  - intros [->|[base ->]]; [reflexivity|].
    apply pop_split_suffix. intros [].
Qed.

(** C9, as stated, fails for the empty filename: it is present and has no
    dot, yet the extension is the fallback, not the (empty) filename. *)
Lemma fileExt_empty_name_falls_back :
  Asset.fileName (Asset.mk (Some []) (Some (lit "image")) None None) = Some []
  /\ ~ In dot []
  /\ fileExt (Asset.mk (Some []) (Some (lit "image")) None None) = lit "png"
  /\ fileExt (Asset.mk (Some []) (Some (lit "image")) None None) <> [].
Proof.
  split; [reflexivity|]. split; [intros []|]. split; [reflexivity|].
  vm_compute. discriminate.
Qed.

(** C9, amended. A filename that is present, not empty and without a dot
    is the extension as a whole. The fallback by kind ([fallbackExt]: [mp4]
    for a video, [png] otherwise) is taken when the filename is absent and
    when its last dot-separated segment is empty; in every other case the
    extension is that last segment. *)
Theorem fileExt_cases (asset : Asset.t) :
  (forall name,
      Asset.fileName asset = Some name -> name <> [] -> ~ In dot name ->
      fileExt asset = name)
  /\ (Asset.fileName asset = None -> fileExt asset = fallbackExt asset)
  /\ (forall name,
        Asset.fileName asset = Some name ->
        pop (split dot name) = Some [] ->
        fileExt asset = fallbackExt asset)
  /\ (forall name seg,
        Asset.fileName asset = Some name ->
        pop (split dot name) = Some seg -> seg <> [] ->
        fileExt asset = seg).
Proof.
  rewrite fileExt_unfold. repeat split.
  - intros name -> Hne Hfree. rewrite split_without_sep by exact Hfree.
    destruct name; [congruence | reflexivity].
  - intros ->. reflexivity.
  - intros name -> ->. reflexivity.
  - intros name seg -> -> Hne. destruct seg; [congruence | reflexivity].
Qed.

Lemma fileExt_cases_witness :
  fileExt (Asset.mk (Some (lit "README")) (Some (lit "image")) None None)
  = lit "README"
  /\ fileExt (Asset.mk (Some (lit "clip.")) (Some (lit "video")) None None)
     = lit "mp4".
Proof.
  split.
  - apply (fileExt_cases
             (Asset.mk (Some (lit "README")) (Some (lit "image")) None None)).
    + reflexivity.
    + discriminate.
    + vm_compute. intuition discriminate.
  - destruct (fileExt_cases
                (Asset.mk (Some (lit "clip.")) (Some (lit "video")) None None))
      as [_ [_ [Hempty _]]].
    exact (Hempty (lit "clip.") eq_refl eq_refl).
Defined.

(* ================================================================== *)
(** ** Runs of the handlers *)
(* ================================================================== *)

Example getUser_resolves :
  run (getUser world_ok) (initialScreen None)
  = (setUserId (Some (lit "u1")) (initialScreen None), [AuthGetUser]).
Proof. reflexivity. Qed.

Example initialScreen_editing :
  initialScreen
    (Some (Entry.mk (Some (lit "42")) (Some (lit "Groceries")) None
             (Some (lit ""))))
  = {| title := lit "Groceries"; content := lit ""; media := None;
       userId := None; loading := false |}.
Proof. reflexivity. Qed.

Example pickMedia_attaches :
  onPress (pickMedia world_ok) draft_u1 =
  (setMedia (Some (lit "https://cdn/galeria/entries/u1_1700000000000.jpg"))
     draft_u1,
   [RequestPermissions; LaunchImageLibrary;
    StorageUpload (lit "galeria") (lit "entries/u1_1700000000000.jpg")
      [Byte.x68; Byte.x69]
      {| contentType := lit "image/jpeg"; upsert := true |} (Normal None);
    StorageGetPublicUrl (lit "galeria") (lit "entries/u1_1700000000000.jpg")]).
Proof. reflexivity. Qed.

Example saveEntry_new_note :
  onPress (saveEntry world_ok None) draft_u1 =
  (draft_u1,
   [FromUpsert (lit "entries")
      {| Payload.id := None; Payload.user_id := Some (lit "u1");
         Payload.title := lit "Groceries"; Payload.content := lit "";
         Payload.media_url := Some (lit "https://cdn/galeria/entries/old.png") |}
      (Normal None);
    NavigationGoBack]).
Proof. reflexivity. Qed.

(** Every upload of [pickMedia] goes to the bucket [galeria], under
    [entries/] and the derived name of the first asset, with the resolved
    MIME type and overwriting allowed. *)
Lemma pickMedia_upload_target (w : World) (s : Screen)
    bucket path body options answer :
  In (StorageUpload bucket path body options answer)
     (snd (onPress (pickMedia w) s)) ->
  exists result asset rest,
    launchImageLibraryAsync w = Normal result
    /\ assets result = asset :: rest
    /\ truthy_opt (userId s) = true
    /\ bucket = lit "galeria"
    /\ path = storagePath (fileName (userId s) (Date_now w) asset)
    /\ options = {| contentType := mimeType asset; upsert := true |}.
Proof.
  destruct w as [perm launch now dec up url ups usr].
  unfold_run. intros H.
  destruct perm as [[[|]]|]; scan H.
  destruct launch as [[[|] l]|]; scan H.
  destruct (truthy_opt (userId s)) eqn:Hu; scan H.
  destruct l as [|asset rest]; scan H.
  exists {| canceled := false; assets := asset :: rest |}, asset, rest.
  repeat case_answer; scan H; injection H as <- <- <- <- <-; auto 10.
Qed.

(* ================================================================== *)
(** ** [trim] *)
(* ================================================================== *)

Lemma trimStart_decomp (s : jsstring) :
  exists before,
    s = before ++ trimStart s /\ forallb isWhiteSpace before = true.
Proof.
  induction s as [|c s [before [Heq Hws]]].
  - exists []. now split.
  - simpl. destruct (isWhiteSpace c) eqn:Hc.
    + exists (c :: before). simpl. rewrite Hc, Hws. split; [|reflexivity].
      now rewrite <- Heq.
    + exists []. now split.
Qed.

Lemma trimStart_head (s : jsstring) :
  match trimStart s with
  | c :: _ => isWhiteSpace c = false
  | [] => True
  end.
Proof.
  induction s as [|c s IH]; simpl; [exact I|].
  destruct (isWhiteSpace c) eqn:Hc; [exact IH | exact Hc].
Qed.

Lemma trimStart_app_kept (a b : jsstring) (c : code_unit) :
  isWhiteSpace c = false ->
  trimStart (a ++ c :: b) = trimStart a ++ c :: b.
Proof.
  intros Hc. induction a as [|x a IH]; simpl.
  - now rewrite Hc.
  - destruct (isWhiteSpace x); [exact IH | reflexivity].
Qed.

Lemma trimEnd_cons_kept (c : code_unit) (s : jsstring) :
  isWhiteSpace c = false -> trimEnd (c :: s) = c :: trimEnd s.
Proof.
  intros Hc. unfold trimEnd. simpl rev.
  rewrite trimStart_app_kept by exact Hc.
  now rewrite rev_app_distr.
Qed.

Lemma trimEnd_decomp (s : jsstring) :
  exists after, s = trimEnd s ++ after /\ forallb isWhiteSpace after = true.
Proof.
  destruct (trimStart_decomp (rev s)) as [before [Heq Hws]].
  exists (rev before). split.
  - unfold trimEnd. rewrite <- rev_app_distr, <- Heq. now rewrite rev_involutive.
  - apply forallb_forall. intros x Hx. apply In_rev in Hx.
    now apply (proj1 (forallb_forall _ _) Hws).
Qed.

Lemma trimEnd_last (s : jsstring) :
  match rev (trimEnd s) with
  | c :: _ => isWhiteSpace c = false
  | [] => True
  end.
Proof. unfold trimEnd. rewrite rev_involutive. apply trimStart_head. Qed.

(** [trim] removes a run of whitespace at each end, and all of it. *)
Lemma trim_Trimmed (s : jsstring) : Trimmed s (trim s).
Proof.
  unfold Trimmed, trim. split; [|split].
  - destruct (trimStart_decomp s) as [before [Hs Hb]].
    destruct (trimEnd_decomp (trimStart s)) as [after [Ht Ha]].
    exists before, after. split; [|now split].
    now rewrite <- Ht.
  - pose proof (trimStart_head s) as Hh.
    destruct (trimStart s) as [|c t]; [exact I|].
    now rewrite trimEnd_cons_kept.
  - apply trimEnd_last.
Qed.

(** A string is blank for [saveEntry] when nothing is left of it after
    [trim], that is, when it is whitespace only. *)
Lemma trim_blank_iff (s : jsstring) :
  trim s = [] <-> forallb isWhiteSpace s = true.
Proof.
  split.
  - intros Hb. destruct (trim_Trimmed s) as [[before [after [Heq [H1 H2]]]] _].
    rewrite Hb in Heq. rewrite Heq. simpl.
    rewrite forallb_app, H1, H2. reflexivity.
  - intros Hws. unfold trim.
    assert (Hs : trimStart s = []).
    { induction s as [|c s IH]; [reflexivity|]. simpl in *.
      apply andb_prop in Hws. destruct Hws as [-> Hws]. now apply IH. }
    now rewrite Hs.
Qed.

(* ================================================================== *)
(** ** The media-attachment pipeline: [pickMedia] and [removeMedia] *)
(* ================================================================== *)

(** C3. When the upload answers with an error, the run stops there: the
    draft keeps its media reference (only [loading] is reset), the trace is
    exactly permission request, picker, that one upload and a notice with
    the store's own message; so one upload and no retry, no public-URL
    resolution, no record-store call. *)
Theorem pickMedia_upload_error (w : World) (s : Screen)
    bucket path body options (err : ClientError) :
  In (StorageUpload bucket path body options (Normal (Some err)))
     (snd (onPress (pickMedia w) s)) ->
  fst (onPress (pickMedia w) s) = setLoading false s
  /\ media (fst (onPress (pickMedia w) s)) = media s
  /\ snd (onPress (pickMedia w) s)
     = [RequestPermissions; LaunchImageLibrary;
        StorageUpload bucket path body options (Normal (Some err));
        AlertAlert (lit "Erro") (message err)]
  /\ List.length (filter isStorageUpload (snd (onPress (pickMedia w) s))) = 1
  /\ (forall b p,
        ~ In (StorageGetPublicUrl b p) (snd (onPress (pickMedia w) s)))
  /\ filter isRecordStoreCall (snd (onPress (pickMedia w) s)) = [].
Proof.
  intros H.
  assert (Hrun : onPress (pickMedia w) s =
                 (setLoading false s,
                  [RequestPermissions; LaunchImageLibrary;
                   StorageUpload bucket path body options (Normal (Some err));
                   AlertAlert (lit "Erro") (message err)])).
  { revert H. destruct w as [perm launch now dec up url ups usr].
    unfold_run. intros H.
    destruct perm as [[[|]]|]; cbn; scan H.
    destruct launch as [[[|] l]|]; cbn; scan H.
    destruct (truthy_opt (userId s)) eqn:Hu; cbn; scan H.
    destruct l as [|asset rest]; cbn; scan H.
    repeat (case_answer; cbn; scan H).
    all: injection H as <- <- <- <- <-; reflexivity. }
  rewrite Hrun. cbn [fst snd]. repeat split.
  intros b p Hin. scan Hin.
Qed.

Lemma pickMedia_upload_error_witness :
  onPress (pickMedia world_upload_rejected) draft_u1
  = (draft_u1,
     [RequestPermissions; LaunchImageLibrary;
      StorageUpload (lit "galeria") (lit "entries/u1_1700000000000.jpg")
        [Byte.x68; Byte.x69]
        {| contentType := lit "image/jpeg"; upsert := true |}
        (Normal (Some {| message := lit "quota exceeded" |}));
      AlertAlert (lit "Erro") (lit "quota exceeded")]).
Proof.
  pose proof (@pickMedia_upload_error world_upload_rejected draft_u1
                (lit "galeria") (lit "entries/u1_1700000000000.jpg")
                [Byte.x68; Byte.x69]
                {| contentType := lit "image/jpeg"; upsert := true |}
                {| message := lit "quota exceeded" |}) as H.
  destruct H as [Hs [_ [Ht _]]].
  - vm_compute. right. right. left. reflexivity.
  - rewrite (surjective_pairing (onPress _ _)), Hs, Ht. reflexivity.
Defined.

(** C8. Permission granted and an asset picked, but no user id resolved
    yet: nothing happens after the picker closes. The state is the one
    before, and the trace holds the permission request and the picker only:
    no upload, no URL resolution, no notice. *)
Theorem pickMedia_without_identity (w : World) (s : Screen)
    (permission : PermissionResponse) (result : ImagePickerResult) :
  requestMediaLibraryPermissionsAsync w = Normal permission ->
  granted permission = true ->
  launchImageLibraryAsync w = Normal result ->
  canceled result = false ->
  userId s = None ->
  onPress (pickMedia w) s = (s, [RequestPermissions; LaunchImageLibrary])
  /\ filter isStorageCall (snd (onPress (pickMedia w) s)) = []
  /\ filter isNotice (snd (onPress (pickMedia w) s)) = [].
Proof.
  intros Hperm Hgranted Hlaunch Hcanceled Huser.
  assert (Hrun : onPress (pickMedia w) s
                 = (s, [RequestPermissions; LaunchImageLibrary])).
  { destruct w as [perm launch now dec up url ups usr].
    cbn in Hperm, Hlaunch. subst perm launch.
    unfold_run. rewrite Hgranted, Hcanceled, Huser. reflexivity. }
  rewrite Hrun. repeat split.
Qed.

Lemma pickMedia_without_identity_witness :
  onPress (pickMedia world_ok) draft_anonymous
  = (draft_anonymous, [RequestPermissions; LaunchImageLibrary]).
Proof.
  apply (@pickMedia_without_identity world_ok draft_anonymous
           {| granted := true |}
           {| canceled := false; assets := [photo] |});
    reflexivity.
Defined.

(** C7. Detaching sets the media reference of the draft to null and
    nothing else: title, content, user id and loading flag stay, and the
    trace is empty, so no call reaches the object store (or any other
    collaborator). *)
Theorem removeMedia_detaches (s : Screen) :
  onPress removeMedia s = (setMedia None s, [])
  /\ media (fst (onPress removeMedia s)) = None
  /\ title (fst (onPress removeMedia s)) = title s
  /\ content (fst (onPress removeMedia s)) = content s
  /\ userId (fst (onPress removeMedia s)) = userId s
  /\ loading (fst (onPress removeMedia s)) = loading s
  /\ snd (onPress removeMedia s) = [].
Proof. repeat split. Qed.

(* ================================================================== *)
(** ** Saving: [saveEntry] *)
(* ================================================================== *)

(** C4. Without a user id, saving stops at the first test, whatever the
    title and the content are (so also for a title that is not empty): the
    only event is the notice that the user is not identified, the record
    store is not called, and the state is left as it was. *)
Theorem saveEntry_unauthenticated
    (w : World) (editingEntry : option Entry.t) (s : Screen) :
  userId s = None ->
  onPress (saveEntry w editingEntry) s = (s, [notice_unauthenticated])
  /\ filter isRecordStoreCall (snd (onPress (saveEntry w editingEntry) s)) = [].
Proof.
  intros Huser.
  assert (Hrun : onPress (saveEntry w editingEntry) s
                 = (s, [notice_unauthenticated])).
  { unfold_run. rewrite Huser. reflexivity. }
  rewrite Hrun. split; reflexivity.
Qed.

Lemma saveEntry_unauthenticated_witness :
  truthy (title draft_anonymous) = true
  /\ onPress (saveEntry world_ok None) draft_anonymous
     = (draft_anonymous,
        [AlertAlert (lit "Erro") txt_usuario_nao_identificado]).
Proof.
  split; [reflexivity|].
  apply (@saveEntry_unauthenticated world_ok None draft_anonymous).
  reflexivity.
Defined.

(** C2, as stated, fails: with a blank title, a blank content and no user
    id, the notice is the one of the missing identity, and the validation
    notice is not in the trace. *)
Lemma saveEntry_blank_anonymous_no_validation_notice :
  trim (title draft_blank_anonymous) = []
  /\ trim (content draft_blank_anonymous) = []
  /\ snd (onPress (saveEntry world_ok None) draft_blank_anonymous)
     = [notice_unauthenticated]
  /\ ~ In notice_empty_note
         (snd (onPress (saveEntry world_ok None) draft_blank_anonymous)).
Proof.
  split; [reflexivity|]. split; [reflexivity|]. split; [reflexivity|].
  vm_compute. intros [H|[]]. discriminate H.
Qed.

(** C2, amended. When title and content are both blank after trimming,
    saving never calls the record store and leaves the state as it was; the
    notice is the validation notice when a user id is known, and the notice
    of the missing identity when none is. *)
Theorem saveEntry_blank
    (w : World) (editingEntry : option Entry.t) (s : Screen) :
  trim (title s) = [] ->
  trim (content s) = [] ->
  filter isRecordStoreCall (snd (onPress (saveEntry w editingEntry) s)) = []
  /\ fst (onPress (saveEntry w editingEntry) s) = s
  /\ (truthy_opt (userId s) = true ->
      snd (onPress (saveEntry w editingEntry) s) = [notice_empty_note])
  /\ (truthy_opt (userId s) = false ->
      snd (onPress (saveEntry w editingEntry) s) = [notice_unauthenticated]).
Proof.
  intros Ht Hc. unfold_run. rewrite Ht, Hc.
  destruct (truthy_opt (userId s)); cbn; repeat split; discriminate.
Qed.

Lemma saveEntry_blank_witness :
  snd (onPress (saveEntry world_ok None) draft_blank_u1) = [notice_empty_note]
  /\ filter isRecordStoreCall
       (snd (onPress (saveEntry world_ok None) draft_blank_u1)) = [].
Proof.
  destruct (@saveEntry_blank world_ok None draft_blank_u1)
    as [Hnone [_ [Hnotice _]]]; [reflexivity | reflexivity |].
  split; [apply Hnotice; reflexivity | exact Hnone].
Defined.

(** C10. A save that the record store accepts carried the trimmed title
    and the trimmed content: each is the draft field without the whitespace
    at its two ends. The draft itself keeps its title and content as typed
    (of the state only [loading] is written), and the screen goes back. *)
Theorem saveEntry_persists_trimmed
    (w : World) (editingEntry : option Entry.t) (s : Screen)
    (table : jsstring) (payload : Payload.t) :
  In (FromUpsert table payload (Normal None))
     (snd (onPress (saveEntry w editingEntry) s)) ->
  Payload.title payload = trim (title s)
  /\ Payload.content payload = trim (content s)
  /\ Trimmed (title s) (Payload.title payload)
  /\ Trimmed (content s) (Payload.content payload)
  /\ title (fst (onPress (saveEntry w editingEntry) s)) = title s
  /\ content (fst (onPress (saveEntry w editingEntry) s)) = content s
  /\ fst (onPress (saveEntry w editingEntry) s) = setLoading false s
  /\ snd (onPress (saveEntry w editingEntry) s)
     = [FromUpsert table payload (Normal None); NavigationGoBack].
Proof.
  intros H.
  assert (Hrun : payload
                 = {| Payload.id := match editingEntry with
                                    | Some e => Entry.id e
                                    | None => None
                                    end;
                      Payload.user_id := userId s;
                      Payload.title := trim (title s);
                      Payload.content := trim (content s);
                      Payload.media_url := media s |}
                 /\ onPress (saveEntry w editingEntry) s
                    = (setLoading false s,
                       [FromUpsert table payload (Normal None);
                        NavigationGoBack])).
  { revert H. destruct w as [perm launch now dec up url ups usr].
    unfold_run. intros H.
    destruct (truthy_opt (userId s)); cbn; scan H.
    destruct (truthy (trim (title s))); cbn; scan H.
    - repeat (case_answer; cbn; scan H).
      all: injection H as <- <-; split; reflexivity.
    - destruct (truthy (trim (content s))); cbn; scan H.
      repeat (case_answer; cbn; scan H).
      all: injection H as <- <-; split; reflexivity. }
  destruct Hrun as [-> Hrun]. rewrite Hrun. cbn.
  repeat split; try apply trim_Trimmed.
Qed.

Lemma saveEntry_persists_trimmed_witness :
  title draft_u1 = lit "  Groceries "
  /\ snd (onPress (saveEntry world_ok None) draft_u1)
     = [FromUpsert (lit "entries")
          {| Payload.id := None; Payload.user_id := Some (lit "u1");
             Payload.title := lit "Groceries"; Payload.content := lit "";
             Payload.media_url :=
               Some (lit "https://cdn/galeria/entries/old.png") |}
          (Normal None);
        NavigationGoBack]
  /\ title (fst (onPress (saveEntry world_ok None) draft_u1))
     = lit "  Groceries ".
Proof.
  split; [reflexivity|].
  destruct (@saveEntry_persists_trimmed world_ok None draft_u1
              (lit "entries")
              {| Payload.id := None; Payload.user_id := Some (lit "u1");
                 Payload.title := lit "Groceries"; Payload.content := lit "";
                 Payload.media_url :=
                   Some (lit "https://cdn/galeria/entries/old.png") |})
    as [_ [_ [_ [_ [Ht [_ [_ Htr]]]]]]].
  - vm_compute. left. reflexivity.
  - split; [exact Htr | exact Ht].
Defined.

(* ================================================================== *)
(** ** More on [pickMedia]: the other ways a run ends *)
(* ================================================================== *)

(** When the permission is refused, the picker is not opened: the only
    events are the request and the notice, and the state is untouched. *)
Theorem pickMedia_permission_denied (w : World) (s : Screen)
    (permission : PermissionResponse) :
  requestMediaLibraryPermissionsAsync w = Normal permission ->
  granted permission = false ->
  onPress (pickMedia w) s = (s, [RequestPermissions; notice_permission]).
Proof.
  intros Hperm Hgranted. destruct w as [perm launch now dec up url ups usr].
  cbn in Hperm. subst perm. unfold_run. rewrite Hgranted. reflexivity.
Qed.

Lemma pickMedia_permission_denied_witness :
  onPress
    (pickMedia
       {| requestMediaLibraryPermissionsAsync := Normal {| granted := false |};
          launchImageLibraryAsync := launchImageLibraryAsync world_ok;
          Date_now := Date_now world_ok;
          decode := decode world_ok;
          storage_upload := storage_upload world_ok;
          storage_getPublicUrl := storage_getPublicUrl world_ok;
          from_upsert := from_upsert world_ok;
          auth_getUser := auth_getUser world_ok |})
    draft_u1
  = (draft_u1, [RequestPermissions; notice_permission]).
Proof.
  apply pickMedia_permission_denied with (permission := {| granted := false |});
    reflexivity.
Defined.

(** When the user closes the picker without a choice, nothing follows,
    with or without a user id: no notice, no call to the store, and the
    media already attached stays. *)
Theorem pickMedia_cancelled (w : World) (s : Screen)
    (permission : PermissionResponse) (result : ImagePickerResult) :
  requestMediaLibraryPermissionsAsync w = Normal permission ->
  granted permission = true ->
  launchImageLibraryAsync w = Normal result ->
  canceled result = true ->
  onPress (pickMedia w) s = (s, [RequestPermissions; LaunchImageLibrary]).
Proof.
  intros Hperm Hgranted Hlaunch Hcanceled.
  destruct w as [perm launch now dec up url ups usr].
  cbn in Hperm, Hlaunch. subst perm launch.
  unfold_run. rewrite Hgranted, Hcanceled. reflexivity.
Qed.

Lemma pickMedia_cancelled_witness :
  onPress
    (pickMedia
       {| requestMediaLibraryPermissionsAsync :=
            requestMediaLibraryPermissionsAsync world_ok;
          launchImageLibraryAsync :=
            Normal {| canceled := true; assets := [] |};
          Date_now := Date_now world_ok;
          decode := decode world_ok;
          storage_upload := storage_upload world_ok;
          storage_getPublicUrl := storage_getPublicUrl world_ok;
          from_upsert := from_upsert world_ok;
          auth_getUser := auth_getUser world_ok |})
    draft_u1
  = (draft_u1, [RequestPermissions; LaunchImageLibrary]).
Proof.
  apply pickMedia_cancelled
    with (permission := {| granted := true |})
         (result := {| canceled := true; assets := [] |});
    reflexivity.
Defined.

(** The state an accepted upload leaves: the resolved URL as media, the
    user id as before. *)
Lemma pickMedia_media_after_upload (w : World) (s : Screen)
    bucket path body options (publicUrl : jsstring) :
  In (StorageUpload bucket path body options (Normal None))
     (snd (onPress (pickMedia w) s)) ->
  storage_getPublicUrl w bucket path = Normal publicUrl ->
  media (fst (onPress (pickMedia w) s)) = Some publicUrl
  /\ userId (fst (onPress (pickMedia w) s)) = userId s.
Proof.
  destruct w as [perm launch now dec up url ups usr].
  unfold_run. intros H Hurl.
  destruct perm as [[[|]]|]; cbn; scan H.
  destruct launch as [[[|] l]|]; cbn; scan H.
  destruct (truthy_opt (userId s)) eqn:Hu; cbn; scan H.
  destruct l as [|asset rest]; cbn; scan H.
  destruct (Asset.base64 asset) as [data|]; cbn; scan H.
  destruct (dec data) as [buffer|]; cbn; scan H.
  destruct (up _ _ _ _) as [[err|]|] eqn:Hup; cbn; scan H.
  destruct (url _ _) as [resolved|] eqn:Hresolved; cbn; scan H.
  all: injection H as <- <- <- <-; rewrite Hurl in Hresolved.
  - injection Hresolved as <-. split; reflexivity.
  - discriminate Hresolved.
Qed.

(** An upload the store accepts is followed by the resolution of the
    public URL of the very path that was uploaded, and that URL becomes the
    media of the draft; nothing else of the draft changes, and no notice is
    shown. *)
Theorem pickMedia_attaches_public_url (w : World) (s : Screen)
    bucket path body options (publicUrl : jsstring) :
  In (StorageUpload bucket path body options (Normal None))
     (snd (onPress (pickMedia w) s)) ->
  storage_getPublicUrl w bucket path = Normal publicUrl ->
  onPress (pickMedia w) s
  = (setLoading false (setMedia (Some publicUrl) s),
     [RequestPermissions; LaunchImageLibrary;
      StorageUpload bucket path body options (Normal None);
      StorageGetPublicUrl bucket path]).
Proof.
  destruct w as [perm launch now dec up url ups usr].
  unfold_run. intros H Hurl.
  destruct perm as [[[|]]|]; cbn; scan H.
  destruct launch as [[[|] l]|]; cbn; scan H.
  destruct (truthy_opt (userId s)) eqn:Hu; cbn; scan H.
  destruct l as [|asset rest]; cbn; scan H.
  destruct (Asset.base64 asset) as [data|]; cbn; scan H.
  destruct (dec data) as [buffer|]; cbn; scan H.
  destruct (up _ _ _ _) as [[err|]|] eqn:Hup; cbn; scan H.
  destruct (url _ _) as [resolved|] eqn:Hresolved; cbn; scan H.
  all: injection H as <- <- <- <-; rewrite Hurl in Hresolved.
  - injection Hresolved as <-. reflexivity.
  - discriminate Hresolved.
Qed.

Lemma pickMedia_attaches_public_url_witness :
  media (fst (onPress (pickMedia world_ok) draft_u1))
  = Some (lit "https://cdn/galeria/entries/u1_1700000000000.jpg").
Proof.
  rewrite (@pickMedia_attaches_public_url world_ok draft_u1
             (lit "galeria") (lit "entries/u1_1700000000000.jpg")
             [Byte.x68; Byte.x69]
             {| contentType := lit "image/jpeg"; upsert := true |}
             (lit "https://cdn/galeria/entries/u1_1700000000000.jpg")).
  - reflexivity.
  - vm_compute. right. right. left. reflexivity.
  - reflexivity.
Defined.

Lemma pickMedia_upload_target_witness :
  exists asset,
    lit "entries/u1_1700000000000.jpg"
    = storagePath (fileName (userId draft_u1) (Date_now world_ok) asset)
    /\ {| contentType := lit "image/jpeg"; upsert := true |}
       = {| contentType := mimeType asset; upsert := true |}.
Proof.
  destruct (@pickMedia_upload_target world_ok draft_u1
              (lit "galeria") (lit "entries/u1_1700000000000.jpg")
              [Byte.x68; Byte.x69]
              {| contentType := lit "image/jpeg"; upsert := true |}
              (Normal None))
    as [result [asset [rest [_ [_ [_ [_ [Hpath Hoptions]]]]]]]].
  - vm_compute. right. right. left. reflexivity.
  - exists asset. split; assumption.
Defined.

(** An asset that cannot be turned into bytes never reaches the store: when
    the picker gives no asset, or the first asset has no base64 data (the
    case of a video), or [decode] throws, the run shows the generic failure
    notice without any upload, and only resets [loading]. *)
Theorem pickMedia_no_payload (w : World) (s : Screen)
    (permission : PermissionResponse) (result : ImagePickerResult) :
  requestMediaLibraryPermissionsAsync w = Normal permission ->
  granted permission = true ->
  launchImageLibraryAsync w = Normal result ->
  canceled result = false ->
  truthy_opt (userId s) = true ->
  (assets result = []
   \/ (exists asset rest,
         assets result = asset :: rest
         /\ (Asset.base64 asset = None
             \/ exists data,
                  Asset.base64 asset = Some data /\ decode w data = Throws))) ->
  onPress (pickMedia w) s
  = (setLoading false s,
     [RequestPermissions; LaunchImageLibrary; notice_upload_failed]).
Proof.
  intros Hperm Hgranted Hlaunch Hcanceled Huser Hpayload.
  destruct w as [perm launch now dec up url ups usr].
  cbn in Hperm, Hlaunch, Hpayload. subst perm launch.
  unfold_run. rewrite Hgranted, Hcanceled, Huser. cbn.
  destruct Hpayload as [->|[asset [rest [-> [Hnone|[data [Hsome Hthrows]]]]]]].
  - reflexivity.
  - rewrite Hnone. reflexivity.
  - rewrite Hsome, Hthrows. reflexivity.
Qed.

Lemma pickMedia_no_payload_witness :
  onPress
    (pickMedia
       {| requestMediaLibraryPermissionsAsync :=
            requestMediaLibraryPermissionsAsync world_ok;
          launchImageLibraryAsync :=
            Normal {| canceled := false;
                      assets := [Asset.mk (Some (lit "clip.mov"))
                                   (Some (lit "video")) None None] |};
          Date_now := Date_now world_ok;
          decode := decode world_ok;
          storage_upload := storage_upload world_ok;
          storage_getPublicUrl := storage_getPublicUrl world_ok;
          from_upsert := from_upsert world_ok;
          auth_getUser := auth_getUser world_ok |})
    draft_u1
  = (draft_u1, [RequestPermissions; LaunchImageLibrary; notice_upload_failed]).
Proof.
  apply pickMedia_no_payload
    with (permission := {| granted := true |})
         (result := {| canceled := false;
                       assets := [Asset.mk (Some (lit "clip.mov"))
                                    (Some (lit "video")) None None] |});
    try reflexivity.
  right. exists (Asset.mk (Some (lit "clip.mov")) (Some (lit "video")) None None), [].
  split; [reflexivity | left; reflexivity].
Defined.

(** What [pickMedia] never does, in any world: it leaves the title, the
    content and the user id alone, never calls the record store, uploads at
    most once, resolves at most one URL and shows at most one notice. *)
Theorem pickMedia_frame (w : World) (s : Screen) :
  title (fst (onPress (pickMedia w) s)) = title s
  /\ content (fst (onPress (pickMedia w) s)) = content s
  /\ userId (fst (onPress (pickMedia w) s)) = userId s
  /\ filter isRecordStoreCall (snd (onPress (pickMedia w) s)) = []
  /\ List.length (filter isStorageUpload (snd (onPress (pickMedia w) s))) <= 1
  /\ List.length (filter isStorageCall (snd (onPress (pickMedia w) s))) <= 2
  /\ List.length (filter isNotice (snd (onPress (pickMedia w) s))) <= 1.
Proof.
  destruct w as [perm launch now dec up url ups usr].
  all_runs; repeat split; cbn; lia.
Qed.

(** The media of the draft changes only at the end of a complete run: an
    upload accepted by the store and the URL of the same path resolved. In
    every other run it is the one from before. *)
Theorem pickMedia_media_only_after_upload (w : World) (s : Screen) :
  media (fst (onPress (pickMedia w) s)) = media s
  \/ exists bucket path body options publicUrl,
       In (StorageUpload bucket path body options (Normal None))
          (snd (onPress (pickMedia w) s))
       /\ In (StorageGetPublicUrl bucket path) (snd (onPress (pickMedia w) s))
       /\ storage_getPublicUrl w bucket path = Normal publicUrl
       /\ media (fst (onPress (pickMedia w) s)) = Some publicUrl.
Proof.
  destruct w as [perm launch now dec up url ups usr].
  unfold_run.
  destruct perm as [[[|]]|]; cbn; auto.
  destruct launch as [[[|] l]|]; cbn; auto.
  destruct (truthy_opt (userId s)) eqn:Hu; cbn; auto.
  destruct l as [|asset rest]; cbn; auto.
  destruct (Asset.base64 asset) as [data|]; cbn; auto.
  destruct (dec data) as [buffer|]; cbn; auto.
  destruct (up _ _ _ _) as [[err|]|] eqn:Hup; cbn; auto.
  destruct (url _ _) as [publicUrl|] eqn:Hurl; cbn; auto.
  right. do 5 eexists. split; [right; right; left; reflexivity|].
  split; [right; right; right; left; reflexivity|].
  split; [exact Hurl | reflexivity].
Qed.

(** [finally]: once a run has passed the guard (permission granted, an
    asset picked, a user id known), [loading] is false at its end, however
    the upload went, exceptions included. *)
Theorem pickMedia_resets_loading (w : World) (s : Screen)
    (permission : PermissionResponse) (result : ImagePickerResult) :
  requestMediaLibraryPermissionsAsync w = Normal permission ->
  granted permission = true ->
  launchImageLibraryAsync w = Normal result ->
  canceled result = false ->
  truthy_opt (userId s) = true ->
  loading (fst (onPress (pickMedia w) s)) = false.
Proof.
  intros Hperm Hgranted Hlaunch Hcanceled Huser.
  destruct w as [perm launch now dec up url ups usr].
  cbn in Hperm, Hlaunch. subst perm launch.
  unfold_run. rewrite Hgranted, Hcanceled, Huser. cbn.
  repeat (case_answer; cbn); reflexivity.
Qed.

Lemma pickMedia_resets_loading_witness :
  loading (fst (onPress (pickMedia world_upload_rejected)
                  (setLoading true draft_u1))) = false.
Proof.
  apply pickMedia_resets_loading
    with (permission := {| granted := true |})
         (result := {| canceled := false; assets := [photo] |});
    reflexivity.
Defined.

(* ================================================================== *)
(** ** More on the derived name: well-formed and injective *)
(* ================================================================== *)

Lemma lit_inj (a b : string) : lit a = lit b -> a = b.
Proof.
  unfold lit. intros H.
  rewrite <- (string_of_list_ascii_of_string a),
          <- (string_of_list_ascii_of_string b).
  f_equal. revert H.
  generalize (list_ascii_of_string a) (list_ascii_of_string b).
  induction l as [|x l IH]; intros [|y l']; simpl; try discriminate; auto.
  intros [= Hxy Hl]. f_equal; [|now apply IH].
  rewrite <- (ascii_N_embedding x), <- (ascii_N_embedding y). now rewrite Hxy.
Qed.

Lemma to_int_not_nil (n : Z) :
  Z.to_int n <> Decimal.Pos Decimal.Nil /\ Z.to_int n <> Decimal.Neg Decimal.Nil.
Proof.
  destruct n as [|p|p]; simpl; split; try discriminate;
    intros [= H]; now apply DecimalPos.Unsigned.to_uint_nonnil in H.
Qed.

(** Two different numbers are printed differently. *)
Lemma numberToString_inj (m n : Z) :
  numberToString m = numberToString n -> m = n.
Proof.
  unfold numberToString. intros H. apply lit_inj in H.
  apply DecimalZ.to_int_inj.
  destruct (to_int_not_nil m) as [Hm1 Hm2].
  destruct (to_int_not_nil n) as [Hn1 Hn2].
  pose proof (NilZero.isi _ Hm1 Hm2) as Hm.
  pose proof (NilZero.isi _ Hn1 Hn2) as Hn.
  rewrite H in Hm. rewrite Hm in Hn. now injection Hn.
Qed.

Lemma digits_no_underscore (d : Decimal.uint) :
  ~ In underscore (lit (NilEmpty.string_of_uint d)).
Proof.
  unfold lit.
  induction d; simpl;
    [intros [] | intros [H|H]; [discriminate H | now apply IHd] ..].
Qed.

(** A printed number holds digits and a sign, never an underscore. *)
Lemma numberToString_no_underscore (n : Z) :
  ~ In underscore (numberToString n).
Proof.
  unfold numberToString.
  assert (Hu : forall d, ~ In underscore (lit (NilZero.string_of_uint d))).
  { intros d. destruct d; try apply digits_no_underscore.
    vm_compute. intros [H|[]]. discriminate H. }
  destruct (Z.to_int n) as [d|d].
  - apply Hu.
  - unfold lit in *. simpl.
    intros [H|H]; [discriminate H | now apply (Hu d)].
Qed.

(** A string is cut at the last occurrence of a separator in one way. *)
Lemma last_sep_unique (sep : code_unit) (x y e1 e2 : jsstring) :
  ~ In sep e1 -> ~ In sep e2 ->
  x ++ sep :: e1 = y ++ sep :: e2 -> x = y /\ e1 = e2.
Proof.
  intros H1 H2 Heq.
  assert (He : Some e1 = Some e2).
  { rewrite <- (pop_split_suffix sep x e1 H1),
            <- (pop_split_suffix sep y e2 H2).
    now rewrite Heq. }
  injection He as ->. split; [|reflexivity].
  eapply app_inv_tail, Heq.
Qed.

(** The extension of every derived name is usable as such: not empty, and
    without a dot. *)
Theorem fileExt_wellformed (asset : Asset.t) :
  fileExt asset <> [] /\ ~ In dot (fileExt asset).
Proof.
  split; [|apply fileExt_dot_free].
  rewrite fileExt_unfold.
  assert (Hf : fallbackExt asset <> []).
  { unfold fallbackExt. destruct (isVideo asset); discriminate. }
  destruct (match Asset.fileName asset with
            | Some name => pop (split dot name)
            | None => None
            end) as [[|c seg]|]; simpl; auto.
  discriminate.
Qed.

(** The content type sent with an upload is never empty, and a declared
    MIME type that is not empty is sent as it is, whatever the kind. *)
Theorem mimeType_wellformed (asset : Asset.t) :
  mimeType asset <> []
  /\ (forall declared,
        Asset.mimeType asset = Some declared -> declared <> [] ->
        mimeType asset = declared).
Proof.
  unfold mimeType, fallbackMime, or_else. split.
  - destruct (Asset.mimeType asset) as [[|c m]|]; simpl;
      destruct (isVideo asset); discriminate.
  - intros declared -> Hne. destruct declared; [congruence | reflexivity].
Qed.

Lemma mimeType_wellformed_witness :
  mimeType (Asset.mk None (Some (lit "video")) (Some (lit "video/quicktime"))
              None)
  = lit "video/quicktime".
Proof.
  apply (mimeType_wellformed
           (Asset.mk None (Some (lit "video")) (Some (lit "video/quicktime"))
              None)).
  - reflexivity.
  - discriminate.
Defined.

(** Two derived names are equal exactly when the owner id, the timestamp
    and the extension are: the name can be read back. So uploads of one
    owner get different names as soon as their timestamps differ, and the
    same name (overwritten, by [upsert: true]) when timestamp and extension
    agree. *)
Theorem fileName_injective
    (o1 o2 : jsstring) (t1 t2 : Z) (a1 a2 : Asset.t) :
  fileName (Some o1) t1 a1 = fileName (Some o2) t2 a2
  <-> o1 = o2 /\ t1 = t2 /\ fileExt a1 = fileExt a2.
Proof.
  split.
  - rewrite !fileName_shape. intros Heq.
    apply last_dot_unique in Heq; try apply fileExt_dot_free.
    destruct Heq as [Heq Hext]. simpl interpolate in Heq.
    change (lit "_" ++ numberToString t1)
      with (underscore :: numberToString t1) in Heq.
    change (lit "_" ++ numberToString t2)
      with (underscore :: numberToString t2) in Heq.
    apply last_sep_unique in Heq; try apply numberToString_no_underscore.
    destruct Heq as [Ho Ht]. apply numberToString_inj in Ht. auto.
  - intros [-> [-> Hext]]. unfold fileName. now rewrite Hext.
Qed.

(* ================================================================== *)
(** ** More on [saveEntry] *)
(* ================================================================== *)

(** The one call [saveEntry] can make: to the table [entries], with the
    id of the entry being edited (none for a new note), the user id, the
    trimmed fields and the media of the draft. *)
Lemma saveEntry_upsert_payload
    (w : World) (editingEntry : option Entry.t) (s : Screen)
    (table : jsstring) (payload : Payload.t)
    (answer : Completion (option ClientError)) :
  In (FromUpsert table payload answer)
     (snd (onPress (saveEntry w editingEntry) s)) ->
  table = lit "entries"
  /\ payload = {| Payload.id := match editingEntry with
                                | Some e => Entry.id e
                                | None => None
                                end;
                  Payload.user_id := userId s;
                  Payload.title := trim (title s);
                  Payload.content := trim (content s);
                  Payload.media_url := media s |}
  /\ answer = from_upsert w table payload
  /\ truthy_opt (userId s) = true.
Proof.
  destruct w as [perm launch now dec up url ups usr].
  unfold_run. intros H.
  destruct (truthy_opt (userId s)); cbn in H; scan H.
  destruct (truthy (trim (title s))); cbn in H; scan H.
  - repeat (case_answer; cbn in H; scan H).
    all: injection H as <- <- <-; auto.
  - destruct (truthy (trim (content s))); cbn in H; scan H.
    repeat (case_answer; cbn in H; scan H).
    all: injection H as <- <- <-; auto.
Qed.

(** One field is enough: with a user id and a title or a content that is
    not blank, the record store is called exactly once, and what follows
    depends on its answer only: back to the list when it accepts, its own
    message when it reports an error, the generic notice when the call
    throws. In each case [loading] ends false and the draft is kept. *)
Theorem saveEntry_one_field_suffices
    (w : World) (editingEntry : option Entry.t) (s : Screen) :
  truthy_opt (userId s) = true ->
  trim (title s) <> [] \/ trim (content s) <> [] ->
  exists payload,
    Payload.id payload = match editingEntry with
                         | Some e => Entry.id e
                         | None => None
                         end
    /\ Payload.user_id payload = userId s
    /\ Payload.title payload = trim (title s)
    /\ Payload.content payload = trim (content s)
    /\ Payload.media_url payload = media s
    /\ onPress (saveEntry w editingEntry) s
       = (setLoading false s,
          [FromUpsert (lit "entries") payload
             (from_upsert w (lit "entries") payload);
           match from_upsert w (lit "entries") payload with
           | Normal None => NavigationGoBack
           | Normal (Some err) => AlertAlert (lit "Erro") (message err)
           | Throws => notice_save_failed
           end]).
Proof.
  intros Huser Hfield.
  exists {| Payload.id := match editingEntry with
                          | Some e => Entry.id e
                          | None => None
                          end;
            Payload.user_id := userId s;
            Payload.title := trim (title s);
            Payload.content := trim (content s);
            Payload.media_url := media s |}.
  do 5 (split; [reflexivity|]).
  destruct w as [perm launch now dec up url ups usr].
  unfold_run. rewrite Huser. cbn.
  assert (Hblank : negb (truthy (trim (title s)))
                   && negb (truthy (trim (content s))) = false).
  { destruct Hfield as [H|H].
    - destruct (trim (title s)); [congruence | reflexivity].
    - destruct (trim (content s)); [congruence|].
      apply andb_false_r. }
  rewrite Hblank.
  destruct (ups _ _) as [[err|]|]; reflexivity.
Qed.

Lemma saveEntry_one_field_suffices_witness :
  exists payload,
    Payload.id payload = Some (lit "42")
    /\ snd (onPress
              (saveEntry world_ok
                 (Some (Entry.mk (Some (lit "42")) (Some (lit "old")) None None)))
              {| title := lit ""; content := lit "milk";
                 media := None; userId := Some (lit "u1");
                 loading := false |})
       = [FromUpsert (lit "entries") payload (Normal None); NavigationGoBack].
Proof.
  destruct (@saveEntry_one_field_suffices world_ok
              (Some (Entry.mk (Some (lit "42")) (Some (lit "old")) None None))
              {| title := lit ""; content := lit "milk";
                 media := None; userId := Some (lit "u1");
                 loading := false |})
    as [payload [Hid [_ [_ [_ [_ Hrun]]]]]].
  - reflexivity.
  - right. vm_compute. discriminate.
  - exists payload. split; [exact Hid|]. rewrite Hrun. reflexivity.
Defined.

(** When the record store reports an error, its message is shown as it is,
    the screen stays open (no going back), and the draft is kept for
    another attempt. *)
Theorem saveEntry_store_error
    (w : World) (editingEntry : option Entry.t) (s : Screen)
    (table : jsstring) (payload : Payload.t) (err : ClientError) :
  In (FromUpsert table payload (Normal (Some err)))
     (snd (onPress (saveEntry w editingEntry) s)) ->
  onPress (saveEntry w editingEntry) s
  = (setLoading false s,
     [FromUpsert table payload (Normal (Some err));
      AlertAlert (lit "Erro") (message err)])
  /\ ~ In NavigationGoBack (snd (onPress (saveEntry w editingEntry) s)).
Proof.
  intros H.
  assert (Hrun : onPress (saveEntry w editingEntry) s
                 = (setLoading false s,
                    [FromUpsert table payload (Normal (Some err));
                     AlertAlert (lit "Erro") (message err)])).
  { revert H. destruct w as [perm launch now dec up url ups usr].
    unfold_run. intros H.
    destruct (truthy_opt (userId s)); cbn; scan H.
    destruct (truthy (trim (title s))); cbn; scan H.
    - repeat (case_answer; cbn; scan H).
      all: injection H as <- <- <-; reflexivity.
    - destruct (truthy (trim (content s))); cbn; scan H.
      repeat (case_answer; cbn; scan H).
      all: injection H as <- <- <-; reflexivity. }
  rewrite Hrun. split; [reflexivity|]. intros Hin. scan Hin.
Qed.

Lemma saveEntry_store_error_witness :
  snd (onPress
         (saveEntry
            {| requestMediaLibraryPermissionsAsync :=
                 requestMediaLibraryPermissionsAsync world_ok;
               launchImageLibraryAsync := launchImageLibraryAsync world_ok;
               Date_now := Date_now world_ok;
               decode := decode world_ok;
               storage_upload := storage_upload world_ok;
               storage_getPublicUrl := storage_getPublicUrl world_ok;
               from_upsert :=
                 fun _ _ => Normal (Some {| message := lit "row too big" |});
               auth_getUser := auth_getUser world_ok |}
            None)
         draft_u1)
  = [FromUpsert (lit "entries")
       {| Payload.id := None; Payload.user_id := Some (lit "u1");
          Payload.title := lit "Groceries"; Payload.content := lit "";
          Payload.media_url := Some (lit "https://cdn/galeria/entries/old.png") |}
       (Normal (Some {| message := lit "row too big" |}));
     AlertAlert (lit "Erro") (lit "row too big")].
Proof.
  match goal with
  | |- snd (onPress (saveEntry ?w ?e) ?s) = [FromUpsert ?t ?p (Normal (Some ?err)); _] =>
      destruct (@saveEntry_store_error w e s t p err) as [Hrun _]
  end.
  - vm_compute. left. reflexivity.
  - rewrite Hrun. reflexivity.
Defined.

(** The screen goes back to the list exactly when the record store has
    accepted the save. *)
Theorem saveEntry_goBack_iff
    (w : World) (editingEntry : option Entry.t) (s : Screen) :
  In NavigationGoBack (snd (onPress (saveEntry w editingEntry) s))
  <-> exists table payload,
        In (FromUpsert table payload (Normal None))
           (snd (onPress (saveEntry w editingEntry) s)).
Proof.
  destruct w as [perm launch now dec up url ups usr].
  unfold_run.
  destruct (truthy_opt (userId s)); cbn.
  2: { split; [intros H; scan H | intros [t [p H]]; scan H]. }
  destruct (negb (truthy (trim (title s)))
            && negb (truthy (trim (content s)))); cbn.
  { split; [intros H; scan H | intros [t [p H]]; scan H]. }
  destruct (ups _ _) as [[err|]|] eqn:Hups; cbn.
  - split; [intros H; scan H | intros [t [p H]]; scan H].
  - split; [intros _ | intros _; right; left; reflexivity].
    do 2 eexists. left. reflexivity.
  - split; [intros H; scan H | intros [t [p H]]; scan H].
Qed.

(** What [saveEntry] never does, in any world: it leaves title, content,
    media and user id of the draft alone (only [loading] is written), never
    calls the object store, calls the record store at most once and shows
    at most one notice. *)
Theorem saveEntry_frame
    (w : World) (editingEntry : option Entry.t) (s : Screen) :
  title (fst (onPress (saveEntry w editingEntry) s)) = title s
  /\ content (fst (onPress (saveEntry w editingEntry) s)) = content s
  /\ media (fst (onPress (saveEntry w editingEntry) s)) = media s
  /\ userId (fst (onPress (saveEntry w editingEntry) s)) = userId s
  /\ filter isStorageCall (snd (onPress (saveEntry w editingEntry) s)) = []
  /\ List.length
       (filter isRecordStoreCall (snd (onPress (saveEntry w editingEntry) s)))
     <= 1
  /\ List.length
       (filter isNotice (snd (onPress (saveEntry w editingEntry) s))) <= 1.
Proof.
  destruct w as [perm launch now dec up url ups usr].
  all_runs; repeat split; cbn; lia.
Qed.

(** With a user id, a draft is refused as empty exactly when its title and
    its content are made of whitespace only (or of nothing). *)
Theorem saveEntry_refuses_whitespace_only
    (w : World) (editingEntry : option Entry.t) (s : Screen) :
  truthy_opt (userId s) = true ->
  (snd (onPress (saveEntry w editingEntry) s) = [notice_empty_note]
   <-> forallb isWhiteSpace (title s) = true
       /\ forallb isWhiteSpace (content s) = true).
Proof.
  intros Huser. rewrite <- !trim_blank_iff.
  destruct w as [perm launch now dec up url ups usr].
  unfold_run. rewrite Huser. cbn.
  destruct (trim (title s)) as [|c t]; cbn.
  - destruct (trim (content s)) as [|c' t']; cbn.
    + split; auto.
    + split; [|intros [_ H]; discriminate H].
      destruct (ups _ _) as [[err|]|]; cbn; intros H; discriminate H.
  - split; [|intros [H _]; discriminate H].
    destruct (ups _ _) as [[err|]|]; cbn; intros H; discriminate H.
Qed.

Lemma saveEntry_refuses_whitespace_only_witness :
  snd (onPress (saveEntry world_ok None)
         {| title := [9; 32; 160]%N; content := [10; 8232]%N;
            media := None; userId := Some (lit "u1"); loading := false |})
  = [notice_empty_note].
Proof.
  apply saveEntry_refuses_whitespace_only; [reflexivity|].
  split; reflexivity.
Defined.

(* ================================================================== *)
(** ** The handlers of the editor, one after the other *)
(* ================================================================== *)

(** Detaching, then saving: whatever the save sends to the record store
    has a null media reference. The detachment, local when it is made,
    reaches the table with the next save. *)
Theorem removeMedia_then_saveEntry
    (w : World) (editingEntry : option Entry.t) (s : Screen)
    (table : jsstring) (payload : Payload.t)
    (answer : Completion (option ClientError)) :
  In (FromUpsert table payload answer)
     (snd (onPress (saveEntry w editingEntry) (fst (onPress removeMedia s)))) ->
  Payload.media_url payload = None
  /\ Payload.title payload = trim (title s)
  /\ Payload.content payload = trim (content s).
Proof.
  intros H. apply saveEntry_upsert_payload in H.
  destruct H as [_ [-> _]]. repeat split.
Qed.

Lemma removeMedia_then_saveEntry_witness :
  media draft_u1 = Some (lit "https://cdn/galeria/entries/old.png")
  /\ Payload.media_url
       {| Payload.id := None; Payload.user_id := Some (lit "u1");
          Payload.title := lit "Groceries"; Payload.content := lit "";
          Payload.media_url := None |} = None.
Proof.
  split; [reflexivity|].
  apply (@removeMedia_then_saveEntry world_ok None draft_u1 (lit "entries")
           {| Payload.id := None; Payload.user_id := Some (lit "u1");
              Payload.title := lit "Groceries"; Payload.content := lit "";
              Payload.media_url := None |} (Normal None)).
  vm_compute. left. reflexivity.
Defined.

(** Attaching, then saving: after a run of [pickMedia] whose upload was
    accepted, the next save sends the resolved public URL as the media
    reference of the record. *)
Theorem pickMedia_then_saveEntry
    (w w' : World) (editingEntry : option Entry.t) (s : Screen)
    bucket path body options (publicUrl : jsstring)
    (table : jsstring) (payload : Payload.t)
    (answer : Completion (option ClientError)) :
  In (StorageUpload bucket path body options (Normal None))
     (snd (onPress (pickMedia w) s)) ->
  storage_getPublicUrl w bucket path = Normal publicUrl ->
  In (FromUpsert table payload answer)
     (snd (onPress (saveEntry w' editingEntry)
             (fst (onPress (pickMedia w) s)))) ->
  Payload.media_url payload = Some publicUrl
  /\ Payload.user_id payload = userId s.
Proof.
  intros Hup Hurl Hsave.
  apply saveEntry_upsert_payload in Hsave. destruct Hsave as [_ [-> _]].
  cbn [Payload.media_url Payload.user_id].
  pose proof (@pickMedia_media_after_upload w s _ _ _ _ _ Hup Hurl) as [Hm Hu].
  now rewrite Hm, Hu.
Qed.

Lemma pickMedia_then_saveEntry_witness :
  exists payload,
    In (FromUpsert (lit "entries") payload (Normal None))
       (snd (onPress (saveEntry world_ok None)
               (fst (onPress (pickMedia world_ok) draft_u1))))
    /\ Payload.media_url payload
       = Some (lit "https://cdn/galeria/entries/u1_1700000000000.jpg").
Proof.
  exists {| Payload.id := None; Payload.user_id := Some (lit "u1");
            Payload.title := lit "Groceries"; Payload.content := lit "";
            Payload.media_url :=
              Some (lit "https://cdn/galeria/entries/u1_1700000000000.jpg") |}.
  assert (Hin : In (FromUpsert (lit "entries")
                      {| Payload.id := None;
                         Payload.user_id := Some (lit "u1");
                         Payload.title := lit "Groceries";
                         Payload.content := lit "";
                         Payload.media_url :=
                           Some (lit "https://cdn/galeria/entries/u1_1700000000000.jpg") |}
                      (Normal None))
                   (snd (onPress (saveEntry world_ok None)
                           (fst (onPress (pickMedia world_ok) draft_u1))))).
  { vm_compute. left. reflexivity. }
  split; [exact Hin|].
  apply (@pickMedia_then_saveEntry world_ok world_ok None draft_u1
           (lit "galeria") (lit "entries/u1_1700000000000.jpg")
           [Byte.x68; Byte.x69]
           {| contentType := lit "image/jpeg"; upsert := true |}
           (lit "https://cdn/galeria/entries/u1_1700000000000.jpg")
           (lit "entries") _ (Normal None)).
  - vm_compute. right. right. left. reflexivity.
  - reflexivity.
  - exact Hin.
Defined.

(** The user id comes from [getUser] only. Starting without one, a save
    made after [getUser] is turned down for lack of identity exactly when
    [getUser] did not get a user with an id that is not empty (no session,
    a failed call, an empty id). *)
Theorem getUser_gates_saveEntry
    (w w' : World) (editingEntry : option Entry.t) (s : Screen) :
  userId s = None ->
  (snd (onPress (saveEntry w' editingEntry) (fst (run (getUser w) s)))
   = [notice_unauthenticated]
   <-> ~ exists uid, auth_getUser w = Normal (Some uid) /\ uid <> []).
Proof.
  intros Huser.
  destruct w as [perm launch now dec up url ups usr].
  destruct w' as [perm' launch' now' dec' up' url' ups' usr'].
  unfold_run. destruct usr as [[uid|]|]; cbn.
  - destruct uid as [|c uid]; cbn.
    + split; [|reflexivity]. intros _ [u [[= <-] Hne]]. congruence.
    + split.
      * intros H. exfalso. revert H.
        destruct (negb (truthy (trim (title s)))
                  && negb (truthy (trim (content s)))); cbn;
          [|destruct (ups' _ _) as [[err|]|]; cbn]; discriminate.
      * intros Hno. exfalso. apply Hno. exists (c :: uid).
        split; [reflexivity | discriminate].
  - rewrite Huser. cbn. split; [|reflexivity].
    intros _ [u [H _]]. discriminate H.
  - rewrite Huser. cbn. split; [|reflexivity].
    intros _ [u [H _]]. discriminate H.
Qed.

Lemma getUser_gates_saveEntry_witness :
  snd (onPress (saveEntry world_ok None)
         (fst (run (getUser
                      {| requestMediaLibraryPermissionsAsync :=
                           requestMediaLibraryPermissionsAsync world_ok;
                         launchImageLibraryAsync :=
                           launchImageLibraryAsync world_ok;
                         Date_now := Date_now world_ok;
                         decode := decode world_ok;
                         storage_upload := storage_upload world_ok;
                         storage_getPublicUrl := storage_getPublicUrl world_ok;
                         from_upsert := from_upsert world_ok;
                         auth_getUser := Normal None |})
                 draft_anonymous)))
  = [notice_unauthenticated].
Proof.
  apply getUser_gates_saveEntry; [reflexivity|].
  intros [uid [H _]]. discriminate H.
Defined.

(* ================================================================== *)
(** ** LoginScreen: [handleLogin] *)
(* ================================================================== *)

(** An empty e-mail or an empty password stops the login before any call to
    the authentication service: one notice, the form as it was. *)
Theorem handleLogin_missing_field (w : Login.World) (f : Login.Form) :
  Login.email f = [] \/ Login.senha f = [] ->
  Login.onPress (Login.handleLogin w) f = (f, [Login.notice_fill_in]).
Proof.
  intros H. unfold_task.
  destruct H as [-> | ->]; cbn; [|rewrite orb_true_r]; reflexivity.
Qed.

Lemma handleLogin_missing_field_witness :
  Login.onPress
    (Login.handleLogin
       {| Login.auth_signInWithPassword := fun _ _ => Normal None |})
    {| Login.email := lit "a@b.c"; Login.senha := lit "";
       Login.loading := false |}
  = ({| Login.email := lit "a@b.c"; Login.senha := lit "";
        Login.loading := false |},
     [Login.notice_fill_in]).
Proof.
  apply handleLogin_missing_field. right. reflexivity.
Defined.

(** With both fields filled, the credentials go to the authentication
    service once and as typed (nothing is trimmed). When it accepts, the
    screen is replaced by Home; when it reports an error, its message is
    shown and there is no navigation; in both cases [loading] ends false. *)
Theorem handleLogin_answered (w : Login.World) (f : Login.Form)
    (error : option ClientError) :
  Login.email f <> [] ->
  Login.senha f <> [] ->
  Login.auth_signInWithPassword w (Login.email f) (Login.senha f)
  = Normal error ->
  Login.onPress (Login.handleLogin w) f
  = (Login.setLoading false f,
     [Login.SignInWithPassword (Login.email f) (Login.senha f) (Normal error);
      match error with
      | Some err => Login.AlertAlert (lit "Erro") (message err)
      | None => Login.NavigationReplace (lit "Home")
      end]).
Proof.
  intros He Hs Hans. unfold_task.
  destruct (Login.email f) as [|c e] eqn:Hemail; [congruence|].
  destruct (Login.senha f) as [|c' p] eqn:Hsenha; [congruence|].
  cbn. rewrite Hans. cbn.
  unfold Login.setLoading. cbn. rewrite Hemail, Hsenha.
  destruct error; reflexivity.
Qed.

Lemma handleLogin_answered_witness :
  snd (Login.onPress
         (Login.handleLogin
            {| Login.auth_signInWithPassword :=
                 fun _ _ =>
                   Normal (Some {| message := lit "Invalid login credentials" |}) |})
         {| Login.email := lit " a@b.c"; Login.senha := lit "pw ";
            Login.loading := false |})
  = [Login.SignInWithPassword (lit " a@b.c") (lit "pw ")
       (Normal (Some {| message := lit "Invalid login credentials" |}));
     Login.AlertAlert (lit "Erro") (lit "Invalid login credentials")].
Proof.
  rewrite (@handleLogin_answered _ _
             (Some {| message := lit "Invalid login credentials" |}));
    try reflexivity; discriminate.
Defined.

(** There is no [try] around the sign-in: when the call throws, nothing
    after it runs. No notice, no navigation, and [loading] stays true. *)
Theorem handleLogin_rejected (w : Login.World) (f : Login.Form) :
  Login.email f <> [] ->
  Login.senha f <> [] ->
  Login.auth_signInWithPassword w (Login.email f) (Login.senha f) = Throws ->
  Login.onPress (Login.handleLogin w) f
  = (Login.setLoading true f,
     [Login.SignInWithPassword (Login.email f) (Login.senha f) Throws]).
Proof.
  intros He Hs Hans. unfold_task.
  destruct (Login.email f) as [|c e] eqn:Hemail; [congruence|].
  destruct (Login.senha f) as [|c' p] eqn:Hsenha; [congruence|].
  cbn. rewrite Hans. cbn.
  unfold Login.setLoading. cbn. rewrite Hemail, Hsenha. reflexivity.
Qed.

Lemma handleLogin_rejected_witness :
  Login.loading
    (fst (Login.onPress
            (Login.handleLogin
               {| Login.auth_signInWithPassword := fun _ _ => Throws |})
            {| Login.email := lit "a@b.c"; Login.senha := lit "pw";
               Login.loading := false |}))
  = true.
Proof.
  rewrite handleLogin_rejected; try reflexivity; discriminate.
Defined.

(* ================================================================== *)
(** ** HomeScreen: [loadEntries], [handleDelete], [handleLogout] *)
(* ================================================================== *)

(** A load that is answered replaces the list by the rows received, by the
    empty list when the answer carries none ([data] null), whatever the
    list was; both busy flags end false, and the table is read once, newest
    first. *)
Theorem loadEntries_answered (w : Home.World) (s : Home.State)
    (data : option (list Entry.t)) :
  Home.select_order w = Normal data ->
  trun (Home.loadEntries w) s
  = ({| Home.entries := match data with Some rows => rows | None => [] end;
        Home.loading := false;
        Home.refreshing := false |},
     [Home.SelectOrder (lit "entries") (lit "*") (lit "created_at") false]).
Proof.
  intros Hans. unfold_task. rewrite Hans. cbn. destruct data; reflexivity.
Qed.

Lemma loadEntries_answered_witness :
  Home.entries
    (fst (trun (Home.loadEntries
                  {| Home.select_order := Normal None;
                     Home.delete_eq := fun _ => Normal None;
                     Home.auth_signOut := Normal None |})
            {| Home.entries := [Entry.mk (Some (lit "42")) None None None];
               Home.loading := true; Home.refreshing := false |}))
  = [].
Proof.
  rewrite (@loadEntries_answered _ _ None); reflexivity.
Defined.

(** There is no [try] in [loadEntries]: when the read throws, the list and
    the [loading] flag stay as they were and [refreshing] stays true. *)
Theorem loadEntries_rejected (w : Home.World) (s : Home.State) :
  Home.select_order w = Throws ->
  trun (Home.loadEntries w) s
  = (Home.setRefreshing true s,
     [Home.SelectOrder (lit "entries") (lit "*") (lit "created_at") false]).
Proof. intros Hans. unfold_task. rewrite Hans. reflexivity. Qed.

Lemma loadEntries_rejected_witness :
  Home.refreshing
    (fst (trun (Home.loadEntries
                  {| Home.select_order := Throws;
                     Home.delete_eq := fun _ => Normal None;
                     Home.auth_signOut := Normal None |})
            {| Home.entries := []; Home.loading := true;
               Home.refreshing := false |}))
  = true.
Proof.
  rewrite loadEntries_rejected; reflexivity.
Defined.

(** Deleting asks first. Only the second button does anything; pressing
    any other leaves the state and makes no call. The second button deletes
    the row of the given id, and only that one, then reloads the list; what
    the delete call answers, an error too, is not looked at: no notice, the
    reload follows all the same. *)
Theorem handleDelete_confirmed (w : Home.World) (id title : jsstring)
    (s : Home.State) (answer : option ClientError) :
  Home.delete_eq w id = Normal answer ->
  Home.press (Home.handleDelete w id title) 1 s
  = (fst (trun (Home.loadEntries w) s),
     Home.DeleteEq (lit "entries") (lit "id") id
       :: snd (trun (Home.loadEntries w) s))
  /\ (forall index, index <> 1 ->
        Home.press (Home.handleDelete w id title) index s = (s, [])).
Proof.
  intros Hans. split.
  - unfold_task. rewrite Hans. cbn.
    destruct (Home.select_order w) as [[rows|]|]; reflexivity.
  - intros [|[|[|index]]] Hne; try reflexivity. congruence.
Qed.

Lemma handleDelete_confirmed_witness :
  Home.press
    (Home.handleDelete
       {| Home.select_order := Normal (Some []);
          Home.delete_eq :=
            fun _ => Normal (Some {| message := lit "permission denied" |});
          Home.auth_signOut := Normal None |}
       (lit "42") (lit "Groceries"))
    1
    {| Home.entries := [Entry.mk (Some (lit "42")) None None None];
       Home.loading := false; Home.refreshing := false |}
  = ({| Home.entries := []; Home.loading := false; Home.refreshing := false |},
     [Home.DeleteEq (lit "entries") (lit "id") (lit "42");
      Home.SelectOrder (lit "entries") (lit "*") (lit "created_at") false]).
Proof.
  match goal with
  | |- Home.press (Home.handleDelete ?w ?i ?t) 1 ?s = _ =>
      destruct (@handleDelete_confirmed w i t s
                  (Some {| message := lit "permission denied" |}))
        as [Hrun _]
  end.
  - reflexivity.
  - rewrite Hrun. reflexivity.
Defined.

(** When the delete call itself throws, the list is not reloaded. *)
Theorem handleDelete_rejected (w : Home.World) (id title : jsstring)
    (s : Home.State) :
  Home.delete_eq w id = Throws ->
  Home.press (Home.handleDelete w id title) 1 s
  = (s, [Home.DeleteEq (lit "entries") (lit "id") id]).
Proof. intros Hans. unfold_task. rewrite Hans. reflexivity. Qed.

Lemma handleDelete_rejected_witness :
  Home.press
    (Home.handleDelete
       {| Home.select_order := Normal (Some []);
          Home.delete_eq := fun _ => Throws;
          Home.auth_signOut := Normal None |}
       (lit "42") (lit "Groceries"))
    1
    {| Home.entries := [Entry.mk (Some (lit "42")) None None None];
       Home.loading := false; Home.refreshing := false |}
  = ({| Home.entries := [Entry.mk (Some (lit "42")) None None None];
        Home.loading := false; Home.refreshing := false |},
     [Home.DeleteEq (lit "entries") (lit "id") (lit "42")]).
Proof.
  apply handleDelete_rejected. reflexivity.
Defined.

(** Logging out asks first; only the second button signs out. The screen
    is then replaced by Login whatever the sign-out answers, an error
    included, and is not replaced when the call throws. The state of the
    list is never touched. *)
Theorem handleLogout_pressed (w : Home.World) (s : Home.State) :
  Home.press (Home.handleLogout w) 1 s
  = (s, match Home.auth_signOut w with
        | Normal _ =>
            [Home.AuthSignOut; Home.NavigationReplace (lit "Login")]
        | Throws => [Home.AuthSignOut]
        end)
  /\ (forall index, index <> 1 ->
        Home.press (Home.handleLogout w) index s = (s, [])).
Proof.
  split.
  - unfold_task. destruct (Home.auth_signOut w); reflexivity.
  - intros [|[|[|index]]] Hne; try reflexivity. congruence.
Qed.

Lemma handleLogout_pressed_witness :
  Home.press
    (Home.handleLogout
       {| Home.select_order := Normal None;
          Home.delete_eq := fun _ => Normal None;
          Home.auth_signOut :=
            Normal (Some {| message := lit "network" |}) |})
    0
    {| Home.entries := []; Home.loading := false; Home.refreshing := false |}
  = ({| Home.entries := []; Home.loading := false; Home.refreshing := false |},
     []).
Proof.
  apply handleLogout_pressed. discriminate.
Defined.
